(** * RBAC permission evaluation and epoch-bound session tokens

    A shallow embedding of [core/models.py], [core/services/permissions.py],
    [core/services/token.py], [core/services/auth.py], and of
    [RegisterView.post] and [RoleListView.post] of [api/].

    Conventions of the embedding:
    - Python [int] is [Z] (unbounded); [Optional[int]] is [option Z];
      [str] is [string]; a [datetime] is a number of seconds ([Z]).
    - A database table is the list of its rows, in insertion order.  The
      uniqueness constraints of the schema are not built into the types:
      they are the predicate [db_ok], and the write operations check them
      and raise [IntegrityError] the way the database does.
    - A Python function that may raise returns a [result]; a function that
      writes to the database returns the new database next to its value.
      A call that raises leaves the tables as they were (the sequence
      value a refused [INSERT] consumed is not tracked).
    - [timezone.now()] is an input [now] of the function that calls it; a
      function that reads the clock twice sees the same second twice.
    - PyJWT and bcrypt are not part of the repository: they are section
      variables, PyJWT with the two laws its callers rely on. *)

From Stdlib Require Import ZArith String List Bool Lia.
From stdpp Require Import base option gmap strings.
Import ListNotations.

Local Open Scope string_scope.
Local Open Scope Z_scope.

(** ** Exceptions *)

Inductive exn : Type :=
| DoesNotExist              (* Model.DoesNotExist *)
| MultipleObjectsReturned   (* Model.MultipleObjectsReturned *)
| IntegrityError            (* django.db.IntegrityError *)
| DatabaseError.            (* django.db.DatabaseError *)

Inductive result (A : Type) : Type :=
| Ok (a : A)
| Raise (e : exn).

Arguments Ok {A} a.
Arguments Raise {A} e.

#[global] Instance result_ret : MRet result := fun A a => Ok a.

#[global] Instance result_bind : MBind result := fun A B k m =>
  match m with
  | Ok a => k a
  | Raise e => Raise e
  end.

(** ** core/models.py *)

Module User.
Record t : Type := Build {
  id : Z;
  email : string;
  password_hash : string;
  first_name : string;
  last_name : string;
  patronymic : option string;
  is_active : bool;
  token_version : Z;
  created_at : Z;
  updated_at : Z;
  deleted_at : option Z }.

Definition set_is_active (b : bool) (u : t) : t :=
  Build (id u) (email u) (password_hash u) (first_name u) (last_name u)
        (patronymic u) b (token_version u) (created_at u) (updated_at u)
        (deleted_at u).

Definition set_token_version (v : Z) (u : t) : t :=
  Build (id u) (email u) (password_hash u) (first_name u) (last_name u)
        (patronymic u) (is_active u) v (created_at u) (updated_at u)
        (deleted_at u).

Definition set_created_at (d : Z) (u : t) : t :=
  Build (id u) (email u) (password_hash u) (first_name u) (last_name u)
        (patronymic u) (is_active u) (token_version u) d (updated_at u)
        (deleted_at u).

Definition set_updated_at (d : Z) (u : t) : t :=
  Build (id u) (email u) (password_hash u) (first_name u) (last_name u)
        (patronymic u) (is_active u) (token_version u) (created_at u) d
        (deleted_at u).

Definition set_deleted_at (d : option Z) (u : t) : t :=
  Build (id u) (email u) (password_hash u) (first_name u) (last_name u)
        (patronymic u) (is_active u) (token_version u) (created_at u)
        (updated_at u) d.
End User.

Module Role.
Record t : Type := Build { id : Z; name : string }.
End Role.

(** The join tables carry a surrogate key in the schema; no code modelled
    here reads it, so a row is its pair of foreign keys (and its flags). *)
Module UserRole.
Record t : Type := Build { user_id : Z; role_id : Z }.
End UserRole.

Module BusinessElement.
Record t : Type := Build { id : Z; name : string }.
End BusinessElement.

Module AccessRule.
Record t : Type := Build {
  role_id : Z;
  element_id : Z;
  read_permission : bool;
  read_all_permission : bool;
  create_permission : bool;
  update_permission : bool;
  update_all_permission : bool;
  delete_permission : bool;
  delete_all_permission : bool }.
End AccessRule.

(** The database: one list of rows per table, and the sequences that feed
    [users.id] and [roles.id]. *)
Record Db : Type := BuildDb {
  users : list User.t;
  users_id_seq : Z;
  roles : list Role.t;
  roles_id_seq : Z;
  user_roles : list UserRole.t;
  business_elements : list BusinessElement.t;
  access_rules : list AccessRule.t }.

Definition set_users (us : list User.t) (db : Db) : Db :=
  BuildDb us (users_id_seq db) (roles db) (roles_id_seq db) (user_roles db)
          (business_elements db) (access_rules db).

Definition set_users_id_seq (n : Z) (db : Db) : Db :=
  BuildDb (users db) n (roles db) (roles_id_seq db) (user_roles db)
          (business_elements db) (access_rules db).

Definition set_roles (rs : list Role.t) (db : Db) : Db :=
  BuildDb (users db) (users_id_seq db) rs (roles_id_seq db) (user_roles db)
          (business_elements db) (access_rules db).

Definition set_roles_id_seq (n : Z) (db : Db) : Db :=
  BuildDb (users db) (users_id_seq db) (roles db) n (user_roles db)
          (business_elements db) (access_rules db).

Definition set_user_roles (urs : list UserRole.t) (db : Db) : Db :=
  BuildDb (users db) (users_id_seq db) (roles db) (roles_id_seq db) urs
          (business_elements db) (access_rules db).

(** The schema's constraints: primary keys, [unique=True] and
    [unique_together]. *)
Record db_ok (db : Db) : Prop := {
  users_pk : List.NoDup (map User.id (users db));
  users_email_unique : List.NoDup (map User.email (users db));
  roles_pk : List.NoDup (map Role.id (roles db));
  roles_name_unique : List.NoDup (map Role.name (roles db));
  business_elements_pk :
    List.NoDup (map BusinessElement.id (business_elements db));
  business_elements_name_unique :
    List.NoDup (map BusinessElement.name (business_elements db));
  user_roles_unique_together :
    List.NoDup (map (fun ur => (UserRole.user_id ur, UserRole.role_id ur))
               (user_roles db));
  access_rules_unique_together :
    List.NoDup (map (fun r => (AccessRule.role_id r, AccessRule.element_id r))
               (access_rules db)) }.

(** ** The ORM calls the services make *)

(** [Model.objects.get] with keyword conditions: the only row that satisfies the
    conditions; [DoesNotExist] when there is none, [MultipleObjectsReturned]
    when there are several. *)
Definition objects_get {A} (cond : A -> bool) (table : list A) : result A :=
  match List.filter cond table with
  | [] => Raise DoesNotExist
  | [row] => Ok row
  | _ :: _ :: _ => Raise MultipleObjectsReturned
  end.

(** [AccessRule.objects.filter(role__userrole__user=user, element=element)]:
    the inner join access_rules - roles - user_roles, one result row per
    joined triple. *)
Definition rules_for (db : Db) (user : User.t) (element : BusinessElement.t)
  : list AccessRule.t :=
  flat_map
    (fun rule =>
       if AccessRule.element_id rule =? BusinessElement.id element then
         flat_map
           (fun role =>
              if Role.id role =? AccessRule.role_id rule then
                flat_map
                  (fun ur =>
                     if (UserRole.role_id ur =? Role.id role)
                        && (UserRole.user_id ur =? User.id user)
                     then [rule] else [])
                  (user_roles db)
              else [])
           (roles db)
       else [])
    (access_rules db).

(** ** core/services/permissions.py *)

(** The body of [for rule in rules:], with its early returns; falling out
    of the loop is the final [return False]. *)
Fixpoint scan_rules (user : User.t) (action : string) (owner_id : option Z)
         (rules : list AccessRule.t) : bool :=
  match rules with
  | [] => false
  | rule :: rest =>
    if (action =? "read_all")%string && AccessRule.read_all_permission rule
    then true
    else if (action =? "update_all")%string
            && AccessRule.update_all_permission rule
    then true
    else if (action =? "delete_all")%string
            && AccessRule.delete_all_permission rule
    then true
    else if (action =? "create")%string && AccessRule.create_permission rule
    then true
    else
      let is_owner :=
        match owner_id with
        | None => false
        | Some o => o =? User.id user
        end in
      if (action =? "read")%string then
        if AccessRule.read_all_permission rule then true
        else if AccessRule.read_permission rule && is_owner then true
        else scan_rules user action owner_id rest
      else if (action =? "update")%string then
        if AccessRule.update_all_permission rule then true
        else if AccessRule.update_permission rule && is_owner then true
        else scan_rules user action owner_id rest
      else if (action =? "delete")%string then
        if AccessRule.delete_all_permission rule then true
        else if AccessRule.delete_permission rule && is_owner then true
        else scan_rules user action owner_id rest
      else scan_rules user action owner_id rest
  end.

Definition has_access (db : Db) (user : User.t) (element_name action : string)
           (owner_id : option Z) : result bool :=
  match objects_get
          (fun e => (BusinessElement.name e =? element_name)%string)
          (business_elements db) with
  | Raise DoesNotExist => Ok false
  | Raise e => Raise e
  | Ok element =>
    Ok (scan_rules user action owner_id (rules_for db user element))
  end.

(** ** Writes to the [users] table *)

(** The unique index on [users.email], as seen by a statement that writes
    [user]'s row: some other row already holds the address. *)
Definition email_taken (db : Db) (user : User.t) : bool :=
  existsb
    (fun row => (User.email row =? User.email user)%string
                && negb (User.id row =? User.id user))
    (users db).

Definition pk_exists (db : Db) (pk : Z) : bool :=
  existsb (fun row => User.id row =? pk) (users db).

(** [INSERT INTO users]: [auto_now_add] and [auto_now] stamp the row; the
    primary key and the unique index on [email] may refuse it. *)
Definition insert_user (db : Db) (now : Z) (user : User.t)
  : result (User.t * Db) :=
  let user := User.set_updated_at now (User.set_created_at now user) in
  if pk_exists db (User.id user) then Raise IntegrityError
  else if email_taken db user then Raise IntegrityError
  else Ok (user, set_users (users db ++ [user]) db).

(** [user.save()] on an instance that was loaded from the table: an
    [UPDATE] of every column of the row with that primary key, and an
    [INSERT] when the [UPDATE] touched no row. *)
Definition save (db : Db) (now : Z) (user : User.t) : result (User.t * Db) :=
  if pk_exists db (User.id user) then
    let user := User.set_updated_at now user in
    if email_taken db user then Raise IntegrityError
    else
      Ok (user,
          set_users
            (map (fun row => if User.id row =? User.id user then user else row)
                 (users db))
            db)
  else insert_user db now user.

(** [user.save(update_fields=["token_version"])]: only that column is
    written ([updated_at] is not in the list, so [auto_now] does not fire);
    Django raises [DatabaseError] when the [UPDATE] touched no row. *)
Definition save_token_version (db : Db) (user : User.t) : result Db :=
  if pk_exists db (User.id user) then
    Ok (set_users
          (map (fun row =>
                  if User.id row =? User.id user
                  then User.set_token_version (User.token_version user) row
                  else row)
               (users db))
          db)
  else Raise DatabaseError.

(** ** Writes to the [roles] table *)

(** [Role.objects.create(name=name)]: an [INSERT] under the next value of
    the sequence, which the primary key and the unique index on [name] may
    refuse. *)
Definition Role_create (db : Db) (name : string) : result (Role.t * Db) :=
  let pk := roles_id_seq db in
  let role := Role.Build pk name in
  if existsb (fun r => Role.id r =? pk) (roles db) then Raise IntegrityError
  else if existsb (fun r => (Role.name r =? name)%string) (roles db)
  then Raise IntegrityError
  else Ok (role, set_roles (roles db ++ [role]) (set_roles_id_seq (pk + 1) db)).

(** The keyword arguments [RegisterView] forwards to [register_user]: the
    profile, the password and, since the request body is passed on as it
    is, possibly a primary key. *)
Record RegisterData : Type := {
  d_id : option Z;
  d_email : string;
  d_password : string;
  d_first_name : string;
  d_last_name : string;
  d_patronymic : option string }.

Inductive json : Type :=
| JInt (n : Z)
| JStr (s : string)
| JExn (e : exn).           (* str(e), the message of a caught exception *)

Record JsonResponse : Type := {
  body : list (string * json);
  status : Z }.

(** ** api/admin_views.py *)

(** [RoleListView.post], for a request whose body carries [name]:
    [request_user] is what the middleware left in [request.user].  The
    write sits in a [try] whose handler answers 400 with the message of
    whatever was raised. *)
Definition RoleListView_post (db : Db) (request_user : option User.t)
           (name : string) : result (JsonResponse * Db) :=
  match request_user with
  | None =>
    Ok ({| body := [("error", JStr "Unauthorized")]; status := 401 |}, db)
  | Some user =>
    allowed ← has_access db user "roles" "create" None;
    if negb allowed then
      Ok ({| body := [("error", JStr "Forbidden")]; status := 403 |}, db)
    else
      match Role_create db name with
      | Ok (role, db') =>
        Ok ({| body := [("id", JInt (Role.id role));
                        ("name", JStr (Role.name role))];
               status := 200 |}, db')
      | Raise e =>
        Ok ({| body := [("error", JExn e)]; status := 400 |}, db)
      end
  end.

Section Services.

(** PyJWT.  [jwt_encode payload key] is
    [jwt.encode(payload, key, algorithm="HS256")]; [jwt_decode now token key]
    is [jwt.decode(token, key, algorithms=["HS256"])] run when the clock
    shows [now], with [None] for every [jwt.PyJWTError].  A payload is a
    dictionary from claim names to integers (PyJWT turns the two
    datetimes into seconds). *)
Context {Token : Type}.
Variable jwt_encode : gmap string Z -> string -> Token.
Variable jwt_decode : Z -> Token -> string -> option (gmap string Z).

(** [settings.JWT_SECRET_KEY] *)
Variable JWT_SECRET_KEY : string.

(** bcrypt.  [hashpw password salt] and [checkpw password hashed], on
    text; the salt of [bcrypt.gensalt()] is an input of [register_user]. *)
Variable hashpw : string -> string -> string.
Variable checkpw : string -> string -> bool.

(** What the decoder returns for a token of the encoder, under the same
    key, is the payload that was encoded. *)
Definition jwt_sound : Prop :=
  forall now payload key payload',
    jwt_decode now (jwt_encode payload key) key = Some payload' ->
    payload' = payload.

(** A token of the encoder decodes under the same key while its [exp]
    lies in the future and its [iat] does not. *)
Definition jwt_complete : Prop :=
  forall now payload key,
    (forall e, payload !! "exp" = Some e -> now < e) ->
    (forall i, payload !! "iat" = Some i -> i <= now) ->
    jwt_decode now (jwt_encode payload key) key = Some payload.

(** *** core/services/token.py *)

Definition generate_token (now : Z) (user : User.t) : Token :=
  let payload : gmap string Z :=
    <["user_id" := User.id user]>
    (<["token_version" := User.token_version user]>
    (<["exp" := now + 24 * 3600]>
    (<["iat" := now]> ∅))) in
  jwt_encode payload JWT_SECRET_KEY.

(** Python's [not x] for [x = payload.get(...)]: [None] and [0] are
    false. *)
Definition falsy (x : option Z) : bool :=
  match x with
  | None => true
  | Some v => v =? 0
  end.

Definition verify_token (db : Db) (now : Z) (token : Token)
  : result (option User.t) :=
  match jwt_decode now token JWT_SECRET_KEY with
  | None => Ok None
  | Some payload =>
    let user_id := payload !! "user_id" in
    let token_version := payload !! "token_version" in
    if falsy user_id then Ok None
    else
      match objects_get
              (fun u => bool_decide (Some (User.id u) = user_id)
                        && User.is_active u)
              (users db) with
      | Raise DoesNotExist => Ok None
      | Raise e => Raise e
      | Ok user =>
        if negb (bool_decide (Some (User.token_version user) = token_version))
        then Ok None
        else Ok (Some user)
      end
  end.

(** *** core/services/auth.py *)

Definition hash_password (password salt : string) : string :=
  hashpw password salt.

Definition check_password (password password_hash : string) : bool :=
  checkpw password password_hash.

(** The [User] built from [data] leaves every column that [data] does not
    name at its default, and [created_at] unset until the [INSERT] stamps
    it.  With a primary key in [data], [save()] first tries an [UPDATE],
    which writes that unset [created_at] into an existing row and is
    refused by the column's [NOT NULL]; with none, the row is inserted
    under the next value of the sequence. *)
Definition register_user (db : Db) (now : Z) (salt : string)
           (data : RegisterData) : result (User.t * Db) :=
  let password := d_password data in
  let user pk :=
    User.Build pk (d_email data) (hash_password password salt)
               (d_first_name data) (d_last_name data) (d_patronymic data)
               true 0 now now None in
  match d_id data with
  | Some pk =>
    if pk_exists db pk then Raise IntegrityError
    else insert_user db now (user pk)
  | None =>
    let pk := users_id_seq db in
    insert_user (set_users_id_seq (pk + 1) db) now (user pk)
  end.

Definition login_user (db : Db) (now : Z) (email password : string)
  : result (option Token) :=
  match objects_get
          (fun u => (User.email u =? email)%string && User.is_active u)
          (users db) with
  | Raise DoesNotExist => Ok None
  | Raise e => Raise e
  | Ok user =>
    if negb (check_password password (User.password_hash user)) then Ok None
    else Ok (Some (generate_token now user))
  end.

(** [logout_user] and [soft_delete_user] mutate the instance they are
    given and then write it: they return the instance as it is after the
    call, and the database. *)
Definition logout_user (db : Db) (user : User.t) : result (User.t * Db) :=
  let user := User.set_token_version (User.token_version user + 1) user in
  db' ← save_token_version db user;
  mret (user, db').

Definition soft_delete_user (db : Db) (now : Z) (user : User.t)
  : result (User.t * Db) :=
  let user := User.set_is_active false user in
  let user := User.set_deleted_at (Some now) user in
  let user := User.set_token_version (User.token_version user + 1) user in
  save db now user.

(** *** api/auth_views.py *)

(** [RegisterView.post]: no [try]; what [register_user] raises leaves
    the view. *)
Definition RegisterView_post (db : Db) (now : Z) (salt : string)
           (data : RegisterData) : result (JsonResponse * Db) :=
  '(user, db') ← register_user db now salt data;
  mret ({| body := [("id", JInt (User.id user))]; status := 200 |}, db').

End Services.

(** ** A reference codec

    Tokens as terms: a payload together with the key that signed it.  It
    satisfies the two laws above, and is the codec of the concrete
    scenarios below. *)
Module SymbolicJwt.

Definition Token : Type := (gmap string Z * string)%type.

Definition encode (payload : gmap string Z) (key : string) : Token :=
  (payload, key).

Definition decode (now : Z) (token : Token) (key : string)
  : option (gmap string Z) :=
  let '(payload, signer) := token in
  if negb (signer =? key)%string then None
  else if match payload !! "exp" with
          | Some e => e <=? now
          | None => false
          end then None
  else if match payload !! "iat" with
          | Some i => now <? i
          | None => false
          end then None
  else Some payload.

Definition hashpw (password salt : string) : string :=
  salt ++ "$" ++ password.

Definition checkpw (password hashed : string) : bool :=
  match index 0 "$" hashed with
  | Some n =>
    (substring (S n) (String.length hashed - S n) hashed =? password)%string
  | None => false
  end.

End SymbolicJwt.

(** ** A small database, after [scripts/seed_data.py] *)
Module Seed.

Definition products := BusinessElement.Build 1 "products".
Definition users_el := BusinessElement.Build 2 "users".
Definition roles_el := BusinessElement.Build 3 "roles".

Definition admin := Role.Build 1 "admin".
Definition manager := Role.Build 2 "manager".
Definition user := Role.Build 3 "user".

Definition admin_products :=
  AccessRule.Build 1 1 false true true false true false true.
Definition admin_roles :=
  AccessRule.Build 1 3 false true true false true false true.
Definition manager_products :=
  AccessRule.Build 2 1 false true true true false true false.
Definition user_products :=
  AccessRule.Build 3 1 true false true true false true false.

Definition alice :=
  User.Build 1 "admin@example.com" "salt$admin123" "Admin" "System" None
             true 0 100 100 None.
Definition bob :=
  User.Build 2 "manager@example.com" "salt$manager123" "Manager" "Test" None
             true 3 100 100 None.
Definition carol :=
  User.Build 3 "carol@example.com" "salt$carol123" "Carol" "Test" None
             true 0 100 100 None.

Definition db : Db :=
  {| users := [alice; bob; carol];
     users_id_seq := 4;
     roles := [admin; manager; user];
     roles_id_seq := 4;
     user_roles := [UserRole.Build 1 1; UserRole.Build 2 2; UserRole.Build 3 3];
     business_elements := [products; users_el; roles_el];
     access_rules :=
       [admin_products; admin_roles; manager_products; user_products] |}.

(** A row whose primary key is 0, as [register_user] stores it when the
    request names that key. *)
Definition zero :=
  User.Build 0 "zero@example.com" "salt$zero" "Zero" "Test" None
             true 0 100 100 None.

Definition db0 : Db := set_users (users db ++ [zero]) db.

Definition key : string := "secret".

End Seed.

(** ** Vocabulary of the statements *)

(** [user] holds [role]: the role exists and a [user_roles] row links the
    two. *)
Definition holds_role (db : Db) (user : User.t) (role : Role.t) : Prop :=
  In role (roles db) /\
  exists ur, In ur (user_roles db) /\
             UserRole.role_id ur = Role.id role /\
             UserRole.user_id ur = User.id user.

(** [rule] is the access rule of [role] on [element]. *)
Definition rule_of (db : Db) (role : Role.t) (element : BusinessElement.t)
           (rule : AccessRule.t) : Prop :=
  In rule (access_rules db) /\
  AccessRule.role_id rule = Role.id role /\
  AccessRule.element_id rule = BusinessElement.id element.

(** The three owner-scoped verbs, and the two flags of a rule that speak
    about each of them. *)
Definition owner_scoped (action : string) : Prop :=
  action = "read" \/ action = "update" \/ action = "delete".

Definition scoped_permission (action : string) (rule : AccessRule.t) : bool :=
  if (action =? "read")%string then AccessRule.read_permission rule
  else if (action =? "update")%string then AccessRule.update_permission rule
  else if (action =? "delete")%string then AccessRule.delete_permission rule
  else false.

Definition all_permission (action : string) (rule : AccessRule.t) : bool :=
  if (action =? "read")%string then AccessRule.read_all_permission rule
  else if (action =? "update")%string then AccessRule.update_all_permission rule
  else if (action =? "delete")%string then AccessRule.delete_all_permission rule
  else false.

Definition canonical_verbs : list string :=
  ["read"; "read_all"; "create"; "update"; "update_all"; "delete";
   "delete_all"].

(** What one rule grants, as a formula: the disjunction the loop body of
    [has_access] tests. *)
Definition rule_allows (user : User.t) (action : string) (owner_id : option Z)
           (rule : AccessRule.t) : bool :=
  let is_owner := bool_decide (owner_id = Some (User.id user)) in
  (action =? "read_all")%string && AccessRule.read_all_permission rule
  || (action =? "update_all")%string && AccessRule.update_all_permission rule
  || (action =? "delete_all")%string && AccessRule.delete_all_permission rule
  || (action =? "create")%string && AccessRule.create_permission rule
  || (action =? "read")%string
     && (AccessRule.read_all_permission rule
         || AccessRule.read_permission rule && is_owner)
  || (action =? "update")%string
     && (AccessRule.update_all_permission rule
         || AccessRule.update_permission rule && is_owner)
  || (action =? "delete")%string
     && (AccessRule.delete_all_permission rule
         || AccessRule.delete_permission rule && is_owner).

(** Two databases that differ in [user_roles] only, the second holding
    every assignment of the first. *)
Definition roles_added (db db' : Db) : Prop :=
  users db' = users db /\
  roles db' = roles db /\
  business_elements db' = business_elements db /\
  access_rules db' = access_rules db /\
  incl (user_roles db) (user_roles db').

(** The [users] table after [UPDATE ... WHERE id = pk], [write] being what
    the statement does to a row. *)
Definition updated (pk : Z) (write : User.t -> User.t) (rows : list User.t)
  : list User.t :=
  map (fun row => if User.id row =? pk then write row else row) rows.

(** The instance [soft_delete_user] writes and returns for [user]. *)
Definition soft_deleted (now : Z) (user : User.t) : User.t :=
  User.set_updated_at now
    (User.set_token_version (User.token_version user + 1)
       (User.set_deleted_at (Some now) (User.set_is_active false user))).

(** The payload [generate_token] signs. *)
Definition claims (now : Z) (user : User.t) : gmap string Z :=
  <["user_id" := User.id user]>
  (<["token_version" := User.token_version user]>
  (<["exp" := now + 24 * 3600]>
  (<["iat" := now]> ∅))).

(** ** core/services/permissions.py: the permission table and the helpers *)

(** [AccessRule.objects.filter(role__userrole__user=user)
    .select_related("element", "role")]: the join of [rules_for] without
    the condition on the element, each rule next to the [business_elements]
    row its foreign key points to. *)
Definition rules_of_user (db : Db) (user : User.t)
  : list (AccessRule.t * BusinessElement.t) :=
  flat_map
    (fun rule =>
       flat_map
         (fun role =>
            if Role.id role =? AccessRule.role_id rule then
              flat_map
                (fun ur =>
                   if (UserRole.role_id ur =? Role.id role)
                      && (UserRole.user_id ur =? User.id user)
                   then
                     flat_map
                       (fun element =>
                          if BusinessElement.id element
                             =? AccessRule.element_id rule
                          then [(rule, element)] else [])
                       (business_elements db)
                   else [])
                (user_roles db)
            else [])
         (roles db))
    (access_rules db).

(** The dictionary a business element starts with. *)
Definition no_permissions : gmap string bool :=
  <["read" := false]>
  (<["read_all" := false]>
  (<["create" := false]>
  (<["update" := false]>
  (<["update_all" := false]>
  (<["delete" := false]>
  (<["delete_all" := false]> ∅)))))).

(** [d[key]], read where the key is in the dictionary (every dictionary of
    the table holds the seven keys, see [permission_table_entries]). *)
Definition getitem (d : gmap string bool) (key : string) : bool :=
  default false (d !! key).

(** The seven assignments [element_perms[k] = element_perms[k] or rule.k]. *)
Definition merge_rule (rule : AccessRule.t) (element_perms : gmap string bool)
  : gmap string bool :=
  let element_perms :=
    <["read" := getitem element_perms "read"
                || AccessRule.read_permission rule]> element_perms in
  let element_perms :=
    <["read_all" := getitem element_perms "read_all"
                    || AccessRule.read_all_permission rule]> element_perms in
  let element_perms :=
    <["create" := getitem element_perms "create"
                  || AccessRule.create_permission rule]> element_perms in
  let element_perms :=
    <["update" := getitem element_perms "update"
                  || AccessRule.update_permission rule]> element_perms in
  let element_perms :=
    <["update_all" := getitem element_perms "update_all"
                      || AccessRule.update_all_permission rule]>
      element_perms in
  let element_perms :=
    <["delete" := getitem element_perms "delete"
                  || AccessRule.delete_permission rule]> element_perms in
  <["delete_all" := getitem element_perms "delete_all"
                    || AccessRule.delete_all_permission rule]> element_perms.

(** The body of the loop of [get_user_permissions].  The inner dictionary
    is updated in place in Python; here the updated dictionary is stored
    back under its key. *)
Definition permissions_step (permissions : gmap string (gmap string bool))
           (row : AccessRule.t * BusinessElement.t)
  : gmap string (gmap string bool) :=
  let '(rule, element) := row in
  let element_name := BusinessElement.name element in
  let permissions :=
    match permissions !! element_name with
    | None => <[element_name := no_permissions]> permissions
    | Some _ => permissions
    end in
  let element_perms := default ∅ (permissions !! element_name) in
  <[element_name := merge_rule rule element_perms]> permissions.

Definition get_user_permissions (db : Db) (user : User.t)
  : gmap string (gmap string bool) :=
  fold_left permissions_step (rules_of_user db user) ∅.

Definition check_permission_for_element (db : Db) (user : User.t)
           (element_name action : string) (resource_owner_id : option Z)
  : result bool :=
  has_access db user element_name action resource_owner_id.

Definition user_can_create (db : Db) (user : User.t) (element_name : string)
  : result bool :=
  check_permission_for_element db user element_name "create" None.

Definition user_can_read (db : Db) (user : User.t) (element_name : string)
           (resource_owner_id : option Z) : result bool :=
  check_permission_for_element db user element_name "read" resource_owner_id.

Definition user_can_read_all (db : Db) (user : User.t) (element_name : string)
  : result bool :=
  check_permission_for_element db user element_name "read_all" None.

Definition user_can_update (db : Db) (user : User.t) (element_name : string)
           (resource_owner_id : option Z) : result bool :=
  check_permission_for_element db user element_name "update" resource_owner_id.

Definition user_can_update_all (db : Db) (user : User.t)
           (element_name : string) : result bool :=
  check_permission_for_element db user element_name "update_all" None.

Definition user_can_delete (db : Db) (user : User.t) (element_name : string)
           (resource_owner_id : option Z) : result bool :=
  check_permission_for_element db user element_name "delete" resource_owner_id.

Definition user_can_delete_all (db : Db) (user : User.t)
           (element_name : string) : result bool :=
  check_permission_for_element db user element_name "delete_all" None.

(** ** api/mock_views.py *)

(** Responses whose body nests lists and dictionaries. *)
#[warnings="-register-all"]
Inductive jdata : Type :=
| JNum (n : Z)
| JText (s : string)
| JList (items : list jdata)
| JDict (entries : list (string * jdata)).

Record HttpResponse : Type := {
  content : jdata;
  status_code : Z }.

(** [MockProductsView.get]: [has_access] is called without [owner_id]. *)
Definition MockProductsView_get (db : Db) (request_user : option User.t)
  : result HttpResponse :=
  match request_user with
  | None => Ok {| content := JDict []; status_code := 401 |}
  | Some user =>
    allowed ← has_access db user "products" "read" None;
    if negb allowed then Ok {| content := JDict []; status_code := 403 |}
    else
      Ok {| content :=
              JDict
                [("data",
                  JList
                    [JDict [("id", JNum 1); ("name", JText "Product 1");
                            ("owner_id", JNum 1)];
                     JDict [("id", JNum 2); ("name", JText "Product 2");
                            ("owner_id", JNum 2)]])];
            status_code := 200 |}
  end.

(** ** api/auth_views.py: logout and account deletion *)

(** [LogoutView.post] and [DeleteAccountView.delete]; a model instance is
    true in [if not request.user], so only [None] takes the 401 branch. *)
Definition LogoutView_post (db : Db) (request_user : option User.t)
  : result (JsonResponse * Db) :=
  match request_user with
  | None => Ok ({| body := []; status := 401 |}, db)
  | Some user =>
    '(_, db') ← logout_user db user;
    mret ({| body := []; status := 200 |}, db')
  end.

Definition DeleteAccountView_delete (db : Db) (now : Z)
           (request_user : option User.t) : result (JsonResponse * Db) :=
  match request_user with
  | None => Ok ({| body := []; status := 401 |}, db)
  | Some user =>
    '(_, db') ← soft_delete_user db now user;
    mret ({| body := []; status := 200 |}, db')
  end.

(** ** api/admin_views.py: role assignment *)

(** [UserRole.objects.get_or_create(user=user, role=role)]: the row when
    there is one, a new row otherwise; the flag tells which. *)
Definition UserRole_get_or_create (db : Db) (user : User.t) (role : Role.t)
  : result (UserRole.t * bool * Db) :=
  match objects_get
          (fun ur => (UserRole.user_id ur =? User.id user)
                     && (UserRole.role_id ur =? Role.id role))
          (user_roles db) with
  | Ok ur => Ok (ur, false, db)
  | Raise DoesNotExist =>
    let ur := UserRole.Build (User.id user) (Role.id role) in
    Ok (ur, true, set_user_roles (user_roles db ++ [ur]) db)
  | Raise e => Raise e
  end.

(** [AssignRoleView.post], for a request whose body carries the two
    integers [user_id] and [role_id].  The three ORM calls sit in a [try]
    whose handler answers 400; the call of [has_access] does not. *)
Definition AssignRoleView_post (db : Db) (request_user : option User.t)
           (user_id role_id : Z) : result (JsonResponse * Db) :=
  match request_user with
  | None =>
    Ok ({| body := [("error", JStr "Unauthorized")]; status := 401 |}, db)
  | Some request_user =>
    allowed ← has_access db request_user "users" "update_all" None;
    if negb allowed then
      Ok ({| body := [("error", JStr "Forbidden")]; status := 403 |}, db)
    else
      match
        user ← objects_get (fun u => User.id u =? user_id) (users db);
        role ← objects_get (fun r => Role.id r =? role_id) (roles db);
        '(_, _, db') ← UserRole_get_or_create db user role;
        mret (user, role, db')
      with
      | Ok (user, role, db') =>
        Ok ({| body := [("user_id", JInt (User.id user));
                        ("role_id", JInt (Role.id role));
                        ("message", JStr "Role assigned successfully")];
               status := 200 |}, db')
      | Raise e =>
        Ok ({| body := [("error", JExn e)]; status := 400 |}, db)
      end
  end.

(** ** core/middleware.py and the login view, on tokens as text *)

(** [header.startswith(prefix)] *)
Definition startswith (prefix header : string) : bool :=
  String.prefix prefix header.

(** [s.split(" ", 1)]: [s] cut at its first space, or [s] alone. *)
Fixpoint cut_at_space (s : string) : string * option string :=
  match s with
  | EmptyString => (EmptyString, None)
  | String c rest =>
    if Ascii.eqb c Ascii.Space then (EmptyString, Some rest)
    else
      let '(head, tail) := cut_at_space rest in
      (String c head, tail)
  end.

Definition split_once (s : string) : list string :=
  match cut_at_space s with
  | (head, None) => [head]
  | (head, Some tail) => [head; tail]
  end.

(** What may leave the middleware: Python's [IndexError] of [parts[1]], or
    what [verify_token] raises. *)
Inductive fault : Type :=
| IndexError
| OrmError (e : exn).

Inductive outcome (A : Type) : Type :=
| Returned (a : A)
| Faulted (f : fault).

Arguments Returned {A} a.
Arguments Faulted {A} f.

Section TextTokens.

Variable jwt_encode : gmap string Z -> string -> string.
Variable jwt_decode : Z -> string -> string -> option (gmap string Z).
Variable JWT_SECRET_KEY : string.
Variable checkpw : string -> string -> bool.

(** [JWTAuthMiddleware.__call__], up to the call of [get_response]:
    [authorization] is [request.headers.get("Authorization")], the value is
    what the middleware leaves in [request.user]. *)
Definition JWTAuthMiddleware_call (db : Db) (now : Z)
           (authorization : option string) : outcome (option User.t) :=
  match authorization with
  | None => Returned None
  | Some header =>
    if negb (header =? "")%string && startswith "Bearer " header then
      match nth_error (split_once header) 1 with
      | None => Faulted IndexError
      | Some token =>
        match verify_token jwt_decode JWT_SECRET_KEY db now token with
        | Ok user => Returned user
        | Raise e => Faulted (OrmError e)
        end
      end
    else Returned None
  end.

(** [LoginView.post], for a request whose body carries [email] and
    [password]; [not token] is true for [None] and for the empty text. *)
Definition LoginView_post (db : Db) (now : Z) (email password : string)
  : result JsonResponse :=
  token ← login_user jwt_encode JWT_SECRET_KEY checkpw db now email password;
  match token with
  | None | Some EmptyString =>
    Ok {| body := [("error", JStr "invalid credentials")]; status := 401 |}
  | Some token =>
    Ok {| body := [("token", JStr token)]; status := 200 |}
  end.

End TextTokens.

(** ** Vocabulary of the further statements *)

(** The column of a rule that a verb names. *)
Definition rule_flag (action : string) (rule : AccessRule.t) : bool :=
  if (action =? "read")%string then AccessRule.read_permission rule
  else if (action =? "read_all")%string
  then AccessRule.read_all_permission rule
  else if (action =? "create")%string then AccessRule.create_permission rule
  else if (action =? "update")%string then AccessRule.update_permission rule
  else if (action =? "update_all")%string
  then AccessRule.update_all_permission rule
  else if (action =? "delete")%string then AccessRule.delete_permission rule
  else if (action =? "delete_all")%string
  then AccessRule.delete_all_permission rule
  else false.

(** Some role that [user] holds has a rule on an element named
    [element_name] for which [test] holds. *)
Definition held_rule (db : Db) (user : User.t) (element_name : string)
           (test : AccessRule.t -> bool) : Prop :=
  exists role element rule,
    holds_role db user role /\
    rule_of db role element rule /\
    In element (business_elements db) /\
    BusinessElement.name element = element_name /\
    test rule = true.

(** [d.get(key, False)], the answer a caller reads off the permission
    table for an element that may be missing from it. *)
Definition table_flag (table : gmap string (gmap string bool))
           (element_name key : string) : bool :=
  match table !! element_name with
  | None => false
  | Some element_perms => getitem element_perms key
  end.

(** The rules of the join whose element has the given name. *)
Definition named_rules (element_name : string)
           (rows : list (AccessRule.t * BusinessElement.t))
  : list AccessRule.t :=
  map fst
      (List.filter
         (fun row => (BusinessElement.name (snd row) =? element_name)%string)
         rows).

(** A decoder whose answer for a token, when it has one, does not change
    with the clock. *)
Definition jwt_stable {Token : Type}
           (jwt_decode : Z -> Token -> string -> option (gmap string Z))
  : Prop :=
  forall now now' token key payload payload',
    jwt_decode now token key = Some payload ->
    jwt_decode now' token key = Some payload' ->
    payload' = payload.

(** Rows of [users] never carry a deletion date while active. *)
Definition deleted_inactive (db : Db) : Prop :=
  forall row, In row (users db) ->
              User.deleted_at row <> None -> User.is_active row = false.

(** The primary key [register_user] stores the new row under: the one the
    request names, or the next value of the sequence. *)
Definition requested_pk (db : Db) (data : RegisterData) : Z :=
  default (users_id_seq db) (d_id data).

(** The row [register_user] builds from [data] under primary key [pk]. *)
Definition registered (hashpw : string -> string -> string) (pk now : Z)
           (salt : string) (data : RegisterData) : User.t :=
  User.Build pk (d_email data) (hashpw (d_password data) salt)
             (d_first_name data) (d_last_name data) (d_patronymic data)
             true 0 now now None.

(** The seeded database with the rule of [scripts/seed_data.py] that lets
    the role "admin" manage "users". *)
Module Office.

Definition admin_users :=
  AccessRule.Build 1 2 false true true false true false true.

Definition db : Db :=
  BuildDb (users Seed.db) (users_id_seq Seed.db) (roles Seed.db)
          (roles_id_seq Seed.db) (user_roles Seed.db)
          (business_elements Seed.db)
          (access_rules Seed.db ++ [admin_users]).

End Office.

(** * Lemmas on the ORM calls *)

Lemma filter_none {A} (cond : A -> bool) (l : list A) :
  (forall x, In x l -> cond x = false) -> List.filter cond l = [].
Proof.
  induction l as [|a l IH]; simpl; intros H; [reflexivity|].
  rewrite (H a) by (left; reflexivity).
  apply IH. intros x Hx. apply H. right; exact Hx.
Qed.

Lemma filter_single {A B} (key : A -> B) (cond : A -> bool) (l : list A) x :
  List.NoDup (map key l) ->
  In x l ->
  cond x = true ->
  (forall y, In y l -> cond y = true -> key y = key x) ->
  List.filter cond l = [x].
Proof.
  induction l as [|a l IH]; simpl; intros Hnd Hin Hx Hkey; [contradiction|].
  inversion Hnd as [|? ? Hnotin Hnd']; subst.
  destruct Hin as [->|Hin].
  - rewrite Hx. f_equal. apply filter_none. intros y Hy.
    destruct (cond y) eqn:Hy'; [|reflexivity].
    exfalso. apply Hnotin. rewrite <- (Hkey y (or_intror Hy) Hy').
    apply in_map. exact Hy.
  - destruct (cond a) eqn:Ha.
    + exfalso. apply Hnotin.
      rewrite (Hkey a (or_introl eq_refl) Ha). apply in_map. exact Hin.
    + apply IH; auto.
Qed.

Lemma objects_get_none {A} (cond : A -> bool) (l : list A) :
  (forall x, In x l -> cond x = false) ->
  objects_get cond l = Raise DoesNotExist.
Proof. intros H. unfold objects_get. rewrite filter_none; auto. Qed.

Lemma objects_get_single {A B} (key : A -> B) (cond : A -> bool) l x :
  List.NoDup (map key l) ->
  In x l ->
  cond x = true ->
  (forall y, In y l -> cond y = true -> key y = key x) ->
  objects_get cond l = Ok x.
Proof.
  intros. unfold objects_get. erewrite filter_single; eauto.
Qed.

(** Under a unique key that the condition pins down, [objects_get] finds
    its row or raises [DoesNotExist]; it never sees two rows. *)
Lemma objects_get_cases {A B} (key : A -> B) (k : B) (cond : A -> bool) l :
  List.NoDup (map key l) ->
  (forall y, cond y = true -> key y = k) ->
  (objects_get cond l = Raise DoesNotExist /\
   forall x, In x l -> cond x = false)
  \/ (exists x, objects_get cond l = Ok x /\ In x l /\ cond x = true).
Proof.
  intros Hnd Hk.
  destruct (List.filter cond l) as [|x rest] eqn:Hf.
  - left. split.
    + unfold objects_get. rewrite Hf. reflexivity.
    + intros x Hx. destruct (cond x) eqn:Hc; [|reflexivity].
      assert (Hin : In x (List.filter cond l)) by (apply filter_In; auto).
      rewrite Hf in Hin. contradiction.
  - right. exists x.
    assert (Hin : In x (List.filter cond l)) by (rewrite Hf; left; reflexivity).
    apply filter_In in Hin as [Hin Hc].
    split; [|auto].
    apply (objects_get_single key); auto.
    intros y _ Hy. rewrite (Hk y Hy), (Hk x Hc). reflexivity.
Qed.

Lemma element_get_cases db element_name :
  db_ok db ->
  let cond := fun e => (BusinessElement.name e =? element_name)%string in
  (objects_get cond (business_elements db) = Raise DoesNotExist /\
   forall e, In e (business_elements db) ->
             BusinessElement.name e <> element_name)
  \/ (exists e, objects_get cond (business_elements db) = Ok e /\
                In e (business_elements db) /\
                BusinessElement.name e = element_name).
Proof.
  intros Hok cond.
  destruct (objects_get_cases BusinessElement.name element_name cond
              (business_elements db)) as [[Hg Hn]|[e (Hg & Hin & Hc)]].
  - apply Hok.
  - intros y Hy. apply String.eqb_eq. exact Hy.
  - left. split; [exact Hg|]. intros e He Heq.
    specialize (Hn e He). unfold cond in Hn.
    apply String.eqb_neq in Hn. contradiction.
  - right. exists e. repeat split; auto. apply String.eqb_eq. exact Hc.
Qed.

Lemma element_get_found db element :
  db_ok db ->
  In element (business_elements db) ->
  objects_get
    (fun e => (BusinessElement.name e =? BusinessElement.name element)%string)
              (business_elements db) = Ok element.
Proof.
  intros Hok Hin.
  apply (objects_get_single BusinessElement.name); auto.
  - apply Hok.
  - apply String.eqb_refl.
  - intros y _ Hy. apply String.eqb_eq. exact Hy.
Qed.

(** * Lemmas on the rule join and the scan *)

Lemma in_rules_for db user element rule :
  In rule (rules_for db user element) <->
  exists role, holds_role db user role /\ rule_of db role element rule.
Proof.
  unfold rules_for, holds_role, rule_of. rewrite in_flat_map. split.
  - intros (r & Hr & Hin).
    destruct (Z.eqb_spec (AccessRule.element_id r) (BusinessElement.id element))
      as [He|]; [|contradiction].
    apply in_flat_map in Hin as (role & Hrole & Hin).
    destruct (Z.eqb_spec (Role.id role) (AccessRule.role_id r))
      as [Hid|]; [|contradiction].
    apply in_flat_map in Hin as (ur & Hur & Hin).
    destruct (Z.eqb_spec (UserRole.role_id ur) (Role.id role)) as [H1|];
      [|contradiction].
    destruct (Z.eqb_spec (UserRole.user_id ur) (User.id user)) as [H2|];
      [|contradiction].
    simpl in Hin. destruct Hin as [<-|[]].
    exists role. repeat split; eauto.
  - intros (role & (Hrole & ur & Hur & H1 & H2) & Hrule & H3 & H4).
    exists rule. split; [exact Hrule|].
    rewrite H4, Z.eqb_refl. apply in_flat_map. exists role.
    split; [exact Hrole|].
    rewrite H3, Z.eqb_refl. apply in_flat_map. exists ur. split; [exact Hur|].
    rewrite H1, H2, !Z.eqb_refl. left; reflexivity.
Qed.

Lemma is_owner_decide (user : User.t) (owner_id : option Z) :
  match owner_id with
  | None => false
  | Some o => o =? User.id user
  end = bool_decide (owner_id = Some (User.id user)).
Proof.
  destruct owner_id as [o|].
  - destruct (Z.eqb_spec o (User.id user)) as [->|Hne].
    + rewrite bool_decide_eq_true_2; reflexivity.
    + rewrite bool_decide_eq_false_2; [reflexivity|congruence].
  - rewrite bool_decide_eq_false_2; [reflexivity|discriminate].
Qed.

Ltac case_action action :=
  destruct (String.eqb_spec action "read_all");
  [subst action|
   destruct (String.eqb_spec action "update_all");
   [subst action|
    destruct (String.eqb_spec action "delete_all");
    [subst action|
     destruct (String.eqb_spec action "create");
     [subst action|
      destruct (String.eqb_spec action "read");
      [subst action|
       destruct (String.eqb_spec action "update");
       [subst action|
        destruct (String.eqb_spec action "delete");
        [subst action|]]]]]]].

(** The loop is the disjunction of [rule_allows] over the rules. *)
Lemma scan_rules_existsb user action owner_id rules :
  scan_rules user action owner_id rules
  = existsb (rule_allows user action owner_id) rules.
Proof.
  induction rules as [|rule rest IH]; [reflexivity|].
  cbn [scan_rules existsb]. rewrite IH. unfold rule_allows.
  rewrite is_owner_decide.
  generalize (bool_decide (owner_id = Some (User.id user))) as own.
  generalize (existsb (rule_allows user action owner_id) rest) as tl.
  fold (rule_allows user action owner_id).
  intros tl own.
  case_action action; cbn;
    destruct rule as [? ? r ra c u ua d da]; cbn;
    destruct r, ra, c, u, ua, d, da, own; reflexivity.
Qed.

Lemma has_access_found db user element action owner_id :
  db_ok db ->
  In element (business_elements db) ->
  has_access db user (BusinessElement.name element) action owner_id
  = Ok (existsb (rule_allows user action owner_id)
                (rules_for db user element)).
Proof.
  intros Hok Hin. unfold has_access.
  rewrite element_get_found by assumption.
  rewrite scan_rules_existsb. reflexivity.
Qed.

Lemma rule_allows_owner_scoped user action owner_id rule :
  owner_scoped action ->
  rule_allows user action owner_id rule
  = all_permission action rule
    || scoped_permission action rule
       && bool_decide (owner_id = Some (User.id user)).
Proof.
  intros [->|[->| ->]]; unfold rule_allows, all_permission, scoped_permission;
    cbn; destruct rule as [? ? r ra c u ua d da]; cbn;
    destruct (bool_decide (owner_id = Some (User.id user)));
    destruct r, ra, c, u, ua, d, da; reflexivity.
Qed.

Lemma rule_allows_unknown user action owner_id rule :
  ~ In action canonical_verbs ->
  rule_allows user action owner_id rule = false.
Proof.
  intros Hn. unfold rule_allows.
  case_action action;
    try (exfalso; apply Hn; unfold canonical_verbs; simpl; tauto).
  reflexivity.
Qed.

Lemma existsb_false {A} (f : A -> bool) (l : list A) :
  (forall x, In x l -> f x = false) -> existsb f l = false.
Proof.
  intros H. destruct (existsb f l) eqn:E; [|reflexivity].
  apply existsb_exists in E as (x & Hx & Hf). rewrite (H x Hx) in Hf.
  discriminate.
Qed.

Lemma existsb_false_inv {A} (f : A -> bool) (l : list A) x :
  existsb f l = false -> In x l -> f x = false.
Proof.
  intros H Hx. destruct (f x) eqn:E; [|reflexivity].
  rewrite <- H. symmetry. apply existsb_exists. exists x. auto.
Qed.

Lemma NoDup_map_eq {A B} (key : A -> B) (l : list A) x y :
  List.NoDup (map key l) -> In x l -> In y l -> key x = key y -> x = y.
Proof.
  induction l as [|a l IH]; simpl; intros Hnd Hx Hy Hk; [contradiction|].
  inversion Hnd as [|? ? Hnotin Hnd']; subst.
  destruct Hx as [->|Hx], Hy as [->|Hy]; auto.
  - exfalso. apply Hnotin. rewrite Hk. apply in_map. exact Hy.
  - exfalso. apply Hnotin. rewrite <- Hk. apply in_map. exact Hx.
Qed.

Lemma rule_of_unique db role role' element rule rule' :
  db_ok db ->
  rule_of db role element rule ->
  rule_of db role' element rule' ->
  Role.id role' = Role.id role ->
  rule' = rule.
Proof.
  intros Hok (Hin & Hr & He) (Hin' & Hr' & He') Hid.
  apply (NoDup_map_eq
           (fun r => (AccessRule.role_id r, AccessRule.element_id r))
           (access_rules db)); auto.
  - apply Hok.
  - cbn. congruence.
Qed.

(** * The properties of the permission evaluator *)

(** C1. A user holds role [role], whose rule on [element] sets the flag of
    an owner-scoped action (read, update or delete) and not the matching
    [_all] flag, and no rule of another held role on [element] sets that
    [_all] flag.  Then [has_access] answers [True] exactly when [owner_id]
    is given and equals the user's id, and answers [False] when [owner_id]
    is [None] or another id. *)
Theorem scoped_grant_iff_owner db user role element rule action owner_id :
  db_ok db ->
  In element (business_elements db) ->
  holds_role db user role ->
  rule_of db role element rule ->
  owner_scoped action ->
  scoped_permission action rule = true ->
  all_permission action rule = false ->
  (forall role' rule',
      holds_role db user role' ->
      rule_of db role' element rule' ->
      Role.id role' <> Role.id role ->
      all_permission action rule' = false) ->
  (has_access db user (BusinessElement.name element) action owner_id = Ok true
   <-> owner_id = Some (User.id user))
  /\ (owner_id <> Some (User.id user) ->
      has_access db user (BusinessElement.name element) action owner_id
      = Ok false).
Proof.
  intros Hok Hel Hholds Hrule Hact Hscoped Hall Hothers.
  rewrite has_access_found by assumption.
  assert (Hiff : existsb (rule_allows user action owner_id)
                         (rules_for db user element) = true
                 <-> owner_id = Some (User.id user)).
  { rewrite existsb_exists. split.
    - intros (r & Hr & Hallow).
      apply in_rules_for in Hr as (role' & Hh' & Hr').
      rewrite rule_allows_owner_scoped in Hallow by assumption.
      assert (Hna : all_permission action r = false).
      { destruct (Z.eq_dec (Role.id role') (Role.id role)) as [Heq|Hne].
        - rewrite (rule_of_unique db role role' element rule r); auto.
        - eapply Hothers; eauto. }
      rewrite Hna in Hallow. cbn in Hallow.
      apply andb_true_iff in Hallow as [_ Hown].
      apply bool_decide_eq_true in Hown. exact Hown.
    - intros ->. exists rule. split.
      + apply in_rules_for. exists role. split; assumption.
      + rewrite rule_allows_owner_scoped by assumption.
        rewrite Hall, Hscoped. cbn.
        apply bool_decide_eq_true. reflexivity. }
  split.
  - split.
    + intros H. injection H as H. apply Hiff. exact H.
    + intros H. f_equal. apply Hiff. exact H.
  - intros Hne. f_equal.
    destruct (existsb _ _) eqn:E; [|reflexivity].
    exfalso. apply Hne. apply Hiff. reflexivity.
Qed.

(** C2. A user holds a role whose rule on [element] sets the [_all] flag
    of an owner-scoped action.  Then [has_access] answers [True] for the
    unsuffixed action whatever [owner_id] is: [None], the user's id or
    another id. *)
Theorem all_grant_subsumes_scoped db user role element rule action owner_id :
  db_ok db ->
  In element (business_elements db) ->
  holds_role db user role ->
  rule_of db role element rule ->
  owner_scoped action ->
  all_permission action rule = true ->
  has_access db user (BusinessElement.name element) action owner_id = Ok true.
Proof.
  intros Hok Hel Hholds Hrule Hact Hall.
  rewrite has_access_found by assumption. f_equal.
  apply existsb_exists. exists rule. split.
  - apply in_rules_for. exists role. split; assumption.
  - rewrite rule_allows_owner_scoped by assumption. rewrite Hall. reflexivity.
Qed.




(** * Lemmas on the writes to [users] *)

Lemma pk_exists_In db user :
  In user (users db) -> pk_exists db (User.id user) = true.
Proof.
  intros Hin. apply existsb_exists. exists user. split; [exact Hin|].
  apply Z.eqb_refl.
Qed.

Lemma user_by_pk db user row :
  db_ok db -> In user (users db) -> In row (users db) ->
  User.id row = User.id user -> row = user.
Proof.
  intros Hok Hu Hr Hid.
  apply (NoDup_map_eq User.id (users db)); auto. apply Hok.
Qed.

Lemma user_by_email db user row :
  db_ok db -> In user (users db) -> In row (users db) ->
  User.email row = User.email user -> row = user.
Proof.
  intros Hok Hu Hr Hid.
  apply (NoDup_map_eq User.email (users db)); auto. apply Hok.
Qed.

Lemma email_taken_own db user user' :
  db_ok db -> In user (users db) ->
  User.email user' = User.email user ->
  User.id user' = User.id user ->
  email_taken db user' = false.
Proof.
  intros Hok Hin He Hi. apply existsb_false. intros row Hrow.
  destruct (String.eqb_spec (User.email row) (User.email user')) as [Heq|];
    [|reflexivity].
  rewrite (user_by_email db user row Hok Hin Hrow) by congruence.
  rewrite Hi, Z.eqb_refl. reflexivity.
Qed.

Lemma in_updated pk write rows row' :
  In row' (updated pk write rows) <->
  exists row, In row rows /\
              ((User.id row = pk /\ row' = write row)
               \/ (User.id row <> pk /\ row' = row)).
Proof.
  unfold updated. rewrite in_map_iff. split.
  - intros (row & Heq & Hin). exists row. split; [exact Hin|].
    destruct (Z.eqb_spec (User.id row) pk); [left|right]; auto.
  - intros (row & Hin & [[Hid ->]|[Hid ->]]); exists row; split; auto.
    + rewrite Hid, Z.eqb_refl. reflexivity.
    + apply Z.eqb_neq in Hid. rewrite Hid. reflexivity.
Qed.

Lemma updated_ids pk write rows :
  (forall row, In row rows -> User.id row = pk ->
               User.id (write row) = pk) ->
  map User.id (updated pk write rows) = map User.id rows.
Proof.
  intros H. unfold updated. rewrite map_map. apply map_ext_in.
  intros row Hin. destruct (Z.eqb_spec (User.id row) pk); auto.
  rewrite H; auto.
Qed.

Lemma updated_emails pk write rows :
  (forall row, In row rows -> User.id row = pk ->
               User.email (write row) = User.email row) ->
  map User.email (updated pk write rows) = map User.email rows.
Proof.
  intros H. unfold updated. rewrite map_map. apply map_ext_in.
  intros row Hin. destruct (Z.eqb_spec (User.id row) pk); auto.
Qed.

Lemma set_users_ok db rows :
  db_ok db ->
  List.NoDup (map User.id rows) ->
  List.NoDup (map User.email rows) ->
  db_ok (set_users rows db).
Proof. intros [] ? ?. constructor; assumption. Qed.

(** What [logout_user] returns for a stored user. *)
Lemma logout_user_stored db user :
  In user (users db) ->
  logout_user db user
  = Ok (User.set_token_version (User.token_version user + 1) user,
        set_users
          (updated (User.id user)
                   (User.set_token_version (User.token_version user + 1))
                   (users db))
          db).
Proof.
  intros Hin. unfold logout_user, save_token_version. cbn.
  rewrite (pk_exists_In db user Hin). reflexivity.
Qed.

Lemma logout_user_ok db user user' db' :
  db_ok db -> logout_user db user = Ok (user', db') -> db_ok db'.
Proof.
  intros Hok. unfold logout_user, save_token_version. cbn.
  destruct (pk_exists db (User.id user)); [|discriminate].
  cbn. intros H. injection H as _ <-.
  apply set_users_ok; [exact Hok| |].
  - change (List.NoDup (map User.id (updated (User.id user)
             (User.set_token_version (User.token_version user + 1))
             (users db)))).
    rewrite updated_ids; [apply Hok|]. intros row _ Hid. exact Hid.
  - change (List.NoDup (map User.email (updated (User.id user)
             (User.set_token_version (User.token_version user + 1))
             (users db)))).
    rewrite updated_emails; [apply Hok|]. reflexivity.
Qed.

(** What [soft_delete_user] returns for a stored user. *)
Lemma soft_delete_user_stored db now user :
  db_ok db ->
  In user (users db) ->
  soft_delete_user db now user
  = Ok (soft_deleted now user,
        set_users
          (updated (User.id user) (fun _ => soft_deleted now user) (users db))
          db).
Proof.
  intros Hok Hin. unfold soft_delete_user, save. cbn.
  rewrite (pk_exists_In db user Hin).
  rewrite (email_taken_own db user); auto.
Qed.

Lemma soft_delete_user_ok db now user :
  db_ok db ->
  In user (users db) ->
  db_ok (set_users
           (updated (User.id user) (fun _ => soft_deleted now user) (users db))
           db).
Proof.
  intros Hok Hin. apply set_users_ok; [exact Hok| |].
  - rewrite updated_ids; [apply Hok|]. reflexivity.
  - rewrite updated_emails; [apply Hok|]. intros row Hrow Hid.
    rewrite (user_by_pk db user row Hok Hin Hrow Hid). reflexivity.
Qed.

(** * The properties of the session layer *)

Section Sessions.

Context {Token : Type}.
Variable jwt_encode : gmap string Z -> string -> Token.
Variable jwt_decode : Z -> Token -> string -> option (gmap string Z).
Variable JWT_SECRET_KEY : string.
Variable checkpw : string -> string -> bool.

Local Abbreviation issue := (generate_token jwt_encode JWT_SECRET_KEY).
Local Abbreviation verify := (verify_token jwt_decode JWT_SECRET_KEY).
Local Abbreviation login := (login_user jwt_encode JWT_SECRET_KEY checkpw).

Lemma claims_user_id now user :
  claims now user !! "user_id" = Some (User.id user).
Proof. unfold claims. rewrite lookup_insert_eq. reflexivity. Qed.

Lemma claims_token_version now user :
  claims now user !! "token_version" = Some (User.token_version user).
Proof.
  unfold claims. rewrite lookup_insert_ne by discriminate.
  rewrite lookup_insert_eq. reflexivity.
Qed.

Lemma claims_exp now user :
  claims now user !! "exp" = Some (now + 24 * 3600).
Proof.
  unfold claims. rewrite !lookup_insert_ne by discriminate.
  rewrite lookup_insert_eq. reflexivity.
Qed.

Lemma claims_iat now user : claims now user !! "iat" = Some now.
Proof.
  unfold claims. rewrite !lookup_insert_ne by discriminate.
  rewrite lookup_insert_eq. reflexivity.
Qed.

Lemma issue_claims now user :
  issue now user = jwt_encode (claims now user) JWT_SECRET_KEY.
Proof. reflexivity. Qed.

(** A token that does not decode is denied. *)
Lemma verify_undecodable db now token :
  jwt_decode now token JWT_SECRET_KEY = None -> verify db now token = Ok None.
Proof. intros H. unfold verify_token. rewrite H. reflexivity. Qed.

(** Verification of a token that decodes to the claims of [v]. *)
Lemma verify_decoded db now token issued v :
  jwt_decode now token JWT_SECRET_KEY = Some (claims issued v) ->
  verify db now token
  = if User.id v =? 0 then Ok None
    else
      match objects_get
              (fun u => bool_decide (Some (User.id u) = Some (User.id v))
                        && User.is_active u)
              (users db) with
      | Raise DoesNotExist => Ok None
      | Raise e => Raise e
      | Ok user =>
        if negb (bool_decide (Some (User.token_version user)
                              = Some (User.token_version v)))
        then Ok None
        else Ok (Some user)
      end.
Proof.
  intros H. unfold verify_token. rewrite H.
  rewrite claims_user_id, claims_token_version. reflexivity.
Qed.

Lemma get_active_by_pk db user :
  db_ok db ->
  In user (users db) ->
  User.is_active user = true ->
  objects_get
    (fun u => bool_decide (Some (User.id u) = Some (User.id user))
              && User.is_active u)
    (users db) = Ok user.
Proof.
  intros Hok Hin Hact. apply (objects_get_single User.id); auto.
  - apply Hok.
  - rewrite Hact, bool_decide_eq_true_2; reflexivity.
  - intros y _ Hy. apply andb_true_iff in Hy as [Hy _].
    apply bool_decide_eq_true in Hy. congruence.
Qed.

Hypothesis Hsound : jwt_sound jwt_encode jwt_decode.

(** A token issued to [v] either fails to decode or decodes to the
    claims of [v]. *)
Lemma decode_issued now issued v :
  jwt_decode now (issue issued v) JWT_SECRET_KEY = None
  \/ jwt_decode now (issue issued v) JWT_SECRET_KEY = Some (claims issued v).
Proof.
  destruct (jwt_decode now (issue issued v) JWT_SECRET_KEY) as [p|] eqn:E;
    [right|left; reflexivity].
  rewrite issue_claims in E. apply Hsound in E. congruence.
Qed.

(** A token issued to a user whose id is 0 is always denied. *)
Lemma verify_zero_id db now issued v :
  User.id v = 0 -> verify db now (issue issued v) = Ok None.
Proof.
  intros Hz. destruct (decode_issued now issued v) as [E|E].
  - apply verify_undecodable. exact E.
  - rewrite (verify_decoded db now _ issued v E), Hz. reflexivity.
Qed.

(** No token issued to [v] verifies once the stored row of that id is
    inactive or carries another token version. *)
Lemma verify_revoked db now issued v :
  db_ok db ->
  (forall row, In row (users db) -> User.id row = User.id v ->
               User.is_active row = true ->
               User.token_version row <> User.token_version v) ->
  verify db now (issue issued v) = Ok None.
Proof.
  intros Hok Hrow. destruct (decode_issued now issued v) as [E|E].
  - apply verify_undecodable. exact E.
  - rewrite (verify_decoded db now _ issued v E).
    destruct (User.id v =? 0); [reflexivity|].
    destruct (objects_get_cases User.id (User.id v)
                (fun u => bool_decide (Some (User.id u) = Some (User.id v))
                          && User.is_active u)
                (users db)) as [[Hg _]|(row & Hg & Hin & Hc)].
    + apply Hok.
    + intros y Hy. apply andb_true_iff in Hy as [Hy _].
      apply bool_decide_eq_true in Hy. congruence.
    + rewrite Hg. reflexivity.
    + rewrite Hg. apply andb_true_iff in Hc as [Hid Hact].
      apply bool_decide_eq_true in Hid.
      rewrite bool_decide_eq_false_2; [reflexivity|].
      intros Heq. apply (Hrow row Hin); congruence.
Qed.


Hypothesis Hcomplete : jwt_complete jwt_encode jwt_decode.

Lemma decode_fresh now issued v :
  issued <= now < issued + 24 * 3600 ->
  jwt_decode now (issue issued v) JWT_SECRET_KEY = Some (claims issued v).
Proof.
  intros Hnow. rewrite issue_claims. apply Hcomplete.
  - intros e. rewrite claims_exp. intros [= <-]. lia.
  - intros i. rewrite claims_iat. intros [= <-]. lia.
Qed.

Lemma verify_fresh db now issued user :
  db_ok db ->
  In user (users db) ->
  User.is_active user = true ->
  User.id user <> 0 ->
  issued <= now < issued + 24 * 3600 ->
  verify db now (issue issued user) = Ok (Some user).
Proof.
  intros Hok Hin Hact Hnz Hnow.
  rewrite (verify_decoded db now _ issued user (decode_fresh _ _ _ Hnow)).
  apply Z.eqb_neq in Hnz. rewrite Hnz.
  rewrite get_active_by_pk by assumption.
  rewrite bool_decide_eq_true_2; reflexivity.
Qed.



End Sessions.



(** * Registration *)

Lemma pk_exists_false db pk row :
  pk_exists db pk = false -> In row (users db) -> User.id row <> pk.
Proof.
  intros Hpk Hin Heq.
  assert (H : pk_exists db pk = true).
  { apply existsb_exists. exists row. split; [exact Hin|].
    apply Z.eqb_eq. exact Heq. }
  congruence.
Qed.

Lemma NoDup_snoc {A} (l : list A) (x : A) :
  List.NoDup l -> ~ In x l -> List.NoDup (l ++ [x]).
Proof.
  induction l as [|a l IH]; simpl; intros Hnd Hx.
  - constructor; [intros []|constructor].
  - inversion Hnd as [|? ? Ha Hl]; subst. constructor.
    + rewrite in_app_iff. simpl. intros [H|[H|[]]]; [auto|].
      apply Hx. left. congruence.
    + apply IH; auto.
Qed.

(** An [INSERT] that goes through keeps the constraints. *)
Lemma insert_user_ok db now user user' db' :
  db_ok db ->
  insert_user db now user = Ok (user', db') ->
  db_ok db' /\ In user' (users db')
  /\ user' = User.set_updated_at now (User.set_created_at now user).
Proof.
  intros Hok. unfold insert_user. cbn.
  destruct (pk_exists db (User.id user)) eqn:Hpk; [discriminate|].
  destruct (email_taken db _) eqn:Hem; [discriminate|].
  intros H. injection H as <- <-.
  split; [|split; [cbn; apply in_or_app; right; left; reflexivity|reflexivity]].
  apply set_users_ok; [exact Hok| |]; rewrite map_app; cbn;
    apply NoDup_snoc; try apply Hok; rewrite in_map_iff;
    intros (row & Heq & Hrow).
  - exact (pk_exists_false db _ row Hpk Hrow Heq).
  - assert (Hf := existsb_false_inv _ _ row Hem Hrow). cbn in Hf.
    rewrite Heq, String.eqb_refl in Hf. cbn in Hf.
    apply negb_false_iff, Z.eqb_eq in Hf.
    exact (pk_exists_false db _ row Hpk Hrow Hf).
Qed.

Lemma insert_user_duplicate_email db now user :
  (exists row, In row (users db) /\ User.email row = User.email user) ->
  insert_user db now user = Raise IntegrityError.
Proof.
  intros (row & Hrow & Heq). unfold insert_user. cbn.
  destruct (pk_exists db (User.id user)) eqn:Hpk; [reflexivity|].
  replace (email_taken db _) with true; [reflexivity|].
  symmetry. apply existsb_exists. exists row. split; [exact Hrow|]. cbn.
  rewrite Heq, String.eqb_refl. cbn.
  apply negb_true_iff, Z.eqb_neq. exact (pk_exists_false db _ row Hpk Hrow).
Qed.

(** A registration that goes through keeps the constraints and stores an
    active user whose token version is 0. *)
Lemma register_user_ok hashpw db now salt data user db' :
  db_ok db ->
  register_user hashpw db now salt data = Ok (user, db') ->
  db_ok db' /\ In user (users db')
  /\ User.is_active user = true /\ User.token_version user = 0.
Proof.
  intros Hok. unfold register_user.
  destruct (d_id data) as [pk|].
  - destruct (pk_exists db pk); [discriminate|]. intros H.
    apply insert_user_ok in H as (Hok' & Hin & ->); auto.
  - intros H. apply insert_user_ok in H as (Hok' & Hin & ->); auto.
    destruct Hok. constructor; assumption.
Qed.

(** The write path of [api/admin_views.py], by contrast, answers a
    duplicate name with a response. *)
Lemma RoleListView_post_duplicate_name db user name :
  has_access db user "roles" "create" None = Ok true ->
  (exists role, In role (roles db) /\ Role.name role = name) ->
  RoleListView_post db (Some user) name
  = Ok ({| body := [("error", JExn IntegrityError)]; status := 400 |}, db).
Proof.
  intros Hacc (role & Hrole & Hname). unfold RoleListView_post.
  rewrite Hacc. cbn. unfold Role_create.
  destruct (existsb _ (roles db)); [reflexivity|].
  replace (existsb _ (roles db)) with true; [reflexivity|].
  symmetry. apply existsb_exists. exists role. split; [exact Hrole|].
  apply String.eqb_eq. exact Hname.
Qed.

(** C8.  What the code does when the address is taken: [register_user]
    raises the store's [IntegrityError], and [RegisterView.post], which has
    no handler, lets it escape instead of answering with a response. *)
Theorem register_duplicate_email_raises hashpw db now salt data :
  (exists row, In row (users db) /\ User.email row = d_email data) ->
  register_user hashpw db now salt data = Raise IntegrityError
  /\ RegisterView_post hashpw db now salt data = Raise IntegrityError.
Proof.
  intros Hdup.
  assert (H : register_user hashpw db now salt data = Raise IntegrityError).
  { unfold register_user. destruct (d_id data) as [pk|].
    - destruct (pk_exists db pk); [reflexivity|].
      apply insert_user_duplicate_email. exact Hdup.
    - apply insert_user_duplicate_email. exact Hdup. }
  split; [exact H|]. unfold RegisterView_post. rewrite H. reflexivity.
Qed.

(** * The reference codec and the seeded database *)

Lemma symbolic_jwt_sound : jwt_sound SymbolicJwt.encode SymbolicJwt.decode.
Proof.
  intros now payload key payload'.
  unfold SymbolicJwt.decode, SymbolicJwt.encode.
  destruct (negb _); [discriminate|].
  destruct (match payload !! "exp" with Some _ => _ | None => _ end);
    [discriminate|].
  destruct (match payload !! "iat" with Some _ => _ | None => _ end);
    [discriminate|].
  congruence.
Qed.

Lemma symbolic_jwt_complete :
  jwt_complete SymbolicJwt.encode SymbolicJwt.decode.
Proof.
  intros now payload key Hexp Hiat.
  unfold SymbolicJwt.decode, SymbolicJwt.encode.
  rewrite String.eqb_refl. cbn.
  destruct (payload !! "exp") as [e|].
  - specialize (Hexp e eq_refl).
    destruct (Z.leb_spec e now); [lia|].
    destruct (payload !! "iat") as [i|]; [|reflexivity].
    specialize (Hiat i eq_refl). destruct (Z.ltb_spec now i); [lia|reflexivity].
  - destruct (payload !! "iat") as [i|]; [|reflexivity].
    specialize (Hiat i eq_refl). destruct (Z.ltb_spec now i); [lia|reflexivity].
Qed.

Ltac nodup :=
  repeat (apply List.NoDup_cons; [cbn; intuition congruence|]);
  apply List.NoDup_nil.

Lemma seed_db_ok : db_ok Seed.db.
Proof. constructor; cbn; nodup. Qed.

(** The row with primary key 0 is what [register_user] stores when the
    request names that key. *)
Lemma seed_register_zero :
  register_user SymbolicJwt.hashpw Seed.db 100 "salt"
    {| d_id := Some 0; d_email := "zero@example.com"; d_password := "zero";
       d_first_name := "Zero"; d_last_name := "Test"; d_patronymic := None |}
  = Ok (Seed.zero, Seed.db0).
Proof. reflexivity. Qed.

Lemma seed_duplicate_role :
  RoleListView_post Seed.db (Some Seed.alice) "admin"
  = Ok ({| body := [("error", JExn IntegrityError)]; status := 400 |}, Seed.db).
Proof. reflexivity. Qed.

Lemma seed_db0_ok : db_ok Seed.db0.
Proof.
  exact (proj1 (register_user_ok _ _ _ _ _ _ _ seed_db_ok seed_register_zero)).
Qed.

(** * The properties at the seeded database *)

Ltac seed_fact := unfold rule_of; cbn; intuition reflexivity.

Lemma carol_holds_user : holds_role Seed.db Seed.carol Seed.user.
Proof.
  split; [seed_fact|]. exists (UserRole.Build 3 3). seed_fact.
Qed.

Lemma alice_holds_admin : holds_role Seed.db Seed.alice Seed.admin.
Proof.
  split; [seed_fact|]. exists (UserRole.Build 1 1). seed_fact.
Qed.

Lemma carol_holds_only_user role :
  holds_role Seed.db Seed.carol role -> Role.id role = 3.
Proof.
  intros (_ & ur & Hur & H1 & H2). cbn in Hur.
  destruct Hur as [<-|[<-|[<-|[]]]]; cbn in *; congruence.
Qed.

(** Carol holds the role "user", whose rule on "products" sets [read] and
    not [read_all]: she reads what she owns, and only that. *)
Lemma scoped_grant_iff_owner_witness :
  db_ok Seed.db
  /\ holds_role Seed.db Seed.carol Seed.user
  /\ rule_of Seed.db Seed.user Seed.products Seed.user_products
  /\ (has_access Seed.db Seed.carol "products" "read" (Some 3) = Ok true
      <-> Some 3 = Some (User.id Seed.carol))
  /\ (Some 3 <> Some (User.id Seed.carol) ->
      has_access Seed.db Seed.carol "products" "read" (Some 3) = Ok false).
Proof.
  split; [exact seed_db_ok|]. split; [exact carol_holds_user|].
  split; [seed_fact|].
  apply (scoped_grant_iff_owner Seed.db Seed.carol Seed.user Seed.products
           Seed.user_products "read" (Some 3)).
  - exact seed_db_ok.
  - seed_fact.
  - exact carol_holds_user.
  - seed_fact.
  - left; reflexivity.
  - reflexivity.
  - reflexivity.
  - intros role' rule' Hh _ Hne. exfalso. apply Hne.
    exact (carol_holds_only_user role' Hh).
Defined.

(** Alice holds the role "admin", whose rule on "products" sets
    [read_all]: she reads the products of owner 999. *)
Lemma all_grant_subsumes_scoped_witness :
  db_ok Seed.db
  /\ holds_role Seed.db Seed.alice Seed.admin
  /\ has_access Seed.db Seed.alice "products" "read" (Some 999) = Ok true.
Proof.
  split; [exact seed_db_ok|]. split; [exact alice_holds_admin|].
  apply (all_grant_subsumes_scoped Seed.db Seed.alice Seed.admin Seed.products
           Seed.admin_products "read" (Some 999)).
  - exact seed_db_ok.
  - seed_fact.
  - exact alice_holds_admin.
  - seed_fact.
  - left; reflexivity.
  - reflexivity.
Defined.








Lemma register_duplicate_email_raises_witness :
  (exists row, In row (users Seed.db) /\
               User.email row = "admin@example.com")
  /\ RegisterView_post SymbolicJwt.hashpw Seed.db 200 "salt"
       {| d_id := None; d_email := "admin@example.com"; d_password := "pw";
          d_first_name := "A"; d_last_name := "B"; d_patronymic := None |}
     = Raise IntegrityError.
Proof.
  assert (H : exists row, In row (users Seed.db) /\
                          User.email row = "admin@example.com").
  { exists Seed.alice. seed_fact. }
  split; [exact H|].
  apply (register_duplicate_email_raises SymbolicJwt.hashpw Seed.db 200 "salt"
           {| d_id := None; d_email := "admin@example.com"; d_password := "pw";
              d_first_name := "A"; d_last_name := "B";
              d_patronymic := None |} H).
Defined.

(** * The user whose id is 0 *)



(** * The permission table *)

Lemma in_rules_of_user db user rule element :
  In (rule, element) (rules_of_user db user) <->
  (exists role, holds_role db user role /\ rule_of db role element rule)
  /\ In element (business_elements db).
Proof.
  unfold rules_of_user, holds_role, rule_of. rewrite in_flat_map. split.
  - intros (r & Hr & Hin).
    apply in_flat_map in Hin as (role & Hrole & Hin).
    destruct (Z.eqb_spec (Role.id role) (AccessRule.role_id r))
      as [Hid|]; [|contradiction].
    apply in_flat_map in Hin as (ur & Hur & Hin).
    destruct (Z.eqb_spec (UserRole.role_id ur) (Role.id role)) as [H1|];
      [|contradiction].
    destruct (Z.eqb_spec (UserRole.user_id ur) (User.id user)) as [H2|];
      [|contradiction].
    cbn in Hin. apply in_flat_map in Hin as (e & He & Hin).
    destruct (Z.eqb_spec (BusinessElement.id e) (AccessRule.element_id r))
      as [H3|]; [|contradiction].
    destruct Hin as [[= <- <-]|[]].
    split; [|exact He]. exists role. repeat split; eauto.
  - intros ((role & (Hrole & ur & Hur & H1 & H2) & Hrule & H3 & H4) & He).
    exists rule. split; [exact Hrule|].
    apply in_flat_map. exists role. split; [exact Hrole|].
    rewrite H3, Z.eqb_refl. apply in_flat_map. exists ur.
    split; [exact Hur|].
    rewrite H1, H2, !Z.eqb_refl. cbn. apply in_flat_map. exists element.
    split; [exact He|]. rewrite H4, Z.eqb_refl. left; reflexivity.
Qed.

Lemma existsb_iff {A} (f g : A -> bool) (l l' : list A) :
  ((exists x, In x l /\ f x = true) <-> (exists y, In y l' /\ g y = true)) ->
  existsb f l = existsb g l'.
Proof.
  intros H. apply eq_true_iff_eq. rewrite !existsb_exists. exact H.
Qed.

Lemma element_by_name db e e' :
  db_ok db ->
  In e (business_elements db) -> In e' (business_elements db) ->
  BusinessElement.name e' = BusinessElement.name e -> e' = e.
Proof.
  intros Hok He He' Hn.
  apply (NoDup_map_eq BusinessElement.name (business_elements db)); auto.
  apply Hok.
Qed.

(** Under the constraints, [has_access] is the question whether a held
    role has a rule that allows the action on an element of that name. *)
Lemma has_access_held_rule db user element_name action owner_id :
  db_ok db ->
  exists b,
    has_access db user element_name action owner_id = Ok b
    /\ (b = true <->
        held_rule db user element_name (rule_allows user action owner_id)).
Proof.
  intros Hok.
  destruct (element_get_cases db element_name Hok)
    as [[Hg Hnone]|(e & Hg & He & Hname)].
  - exists false. split; [unfold has_access; rewrite Hg; reflexivity|].
    split; [discriminate|].
    intros (role & element & rule & _ & _ & Hin & Hn & _).
    exfalso. exact (Hnone element Hin Hn).
  - subst element_name. eexists. split; [apply has_access_found; assumption|].
    rewrite existsb_exists. split.
    + intros (rule & Hin & Hallow).
      apply in_rules_for in Hin as (role & Hh & Hr).
      exists role, e, rule.
      split; [exact Hh|]. split; [exact Hr|]. split; [exact He|].
      split; [reflexivity|exact Hallow].
    + intros (role & element & rule & Hh & Hr & Hin & Hn & Hallow).
      exists rule. split; [|exact Hallow].
      apply in_rules_for. exists role. split; [exact Hh|].
      rewrite <- (element_by_name db e element Hok He Hin Hn). exact Hr.
Qed.

Lemma no_permissions_lookup action :
  no_permissions !! action
  = if bool_decide (In action canonical_verbs) then Some false else None.
Proof.
  unfold no_permissions, canonical_verbs.
  case_action action;
    try (rewrite bool_decide_eq_true_2 by (cbn; tauto);
         rewrite ?lookup_insert_ne by discriminate;
         rewrite lookup_insert_eq; reflexivity).
  rewrite bool_decide_eq_false_2 by (cbn; intuition congruence).
  rewrite !lookup_insert_ne by congruence. apply lookup_empty.
Qed.

Lemma merge_rule_lookup rule element_perms action :
  merge_rule rule element_perms !! action
  = if bool_decide (In action canonical_verbs)
    then Some (getitem element_perms action || rule_flag action rule)
    else element_perms !! action.
Proof.
  unfold merge_rule, getitem, rule_flag, canonical_verbs.
  case_action action;
    try (rewrite bool_decide_eq_true_2 by (cbn; tauto); cbn;
         rewrite ?lookup_insert_ne by discriminate;
         rewrite lookup_insert_eq;
         rewrite ?lookup_insert_ne by discriminate; reflexivity).
  rewrite bool_decide_eq_false_2 by (cbn; intuition congruence).
  rewrite !lookup_insert_ne by congruence. reflexivity.
Qed.

Lemma permissions_step_lookup permissions rule element element_name :
  permissions_step permissions (rule, element) !! element_name
  = if (BusinessElement.name element =? element_name)%string
    then Some (merge_rule rule
                 (default no_permissions (permissions !! element_name)))
    else permissions !! element_name.
Proof.
  unfold permissions_step.
  destruct (String.eqb_spec (BusinessElement.name element) element_name)
    as [Heq|Hne]; [subst element_name|].
  - rewrite lookup_insert_eq.
    destruct (permissions !! BusinessElement.name element) as [p|] eqn:E.
    + rewrite ?E. reflexivity.
    + rewrite lookup_insert_eq. reflexivity.
  - rewrite lookup_insert_ne by exact Hne.
    destruct (permissions !! BusinessElement.name element); [reflexivity|].
    rewrite lookup_insert_ne by exact Hne. reflexivity.
Qed.

Lemma permissions_fold_lookup rows permissions element_name :
  fold_left permissions_step rows permissions !! element_name
  = fold_left
      (fun entry rule =>
         Some (merge_rule rule (default no_permissions entry)))
      (named_rules element_name rows)
      (permissions !! element_name).
Proof.
  revert permissions. unfold named_rules.
  induction rows as [|[rule element] rows IH]; intros permissions;
    [reflexivity|].
  cbn [fold_left List.filter snd]. rewrite IH, permissions_step_lookup.
  destruct (BusinessElement.name element =? element_name)%string;
    reflexivity.
Qed.

Lemma entry_fold_some rule rules entry :
  fold_left
    (fun entry rule => Some (merge_rule rule (default no_permissions entry)))
    (rule :: rules) entry
  = Some (fold_left (fun p r => merge_rule r p) (rule :: rules)
                    (default no_permissions entry)).
Proof.
  revert rule entry. induction rules as [|r rules IH]; intros rule entry;
    [reflexivity|].
  cbn [fold_left] in *. rewrite IH. reflexivity.
Qed.

Lemma merged_lookup_verb rules element_perms key :
  In key canonical_verbs ->
  is_Some (element_perms !! key) ->
  fold_left (fun p r => merge_rule r p) rules element_perms !! key
  = Some (getitem element_perms key || existsb (rule_flag key) rules).
Proof.
  intros Hkey. revert element_perms.
  induction rules as [|r rules IH]; intros p [b Hb]; cbn [fold_left existsb].
  - unfold getitem. rewrite Hb, orb_false_r. reflexivity.
  - rewrite IH.
    + unfold getitem at 1. rewrite merge_rule_lookup.
      rewrite bool_decide_eq_true_2 by exact Hkey. cbn.
      rewrite orb_assoc. reflexivity.
    + rewrite merge_rule_lookup.
      rewrite bool_decide_eq_true_2 by exact Hkey. eauto.
Qed.

Lemma merged_lookup_other rules element_perms key :
  ~ In key canonical_verbs ->
  fold_left (fun p r => merge_rule r p) rules element_perms !! key
  = element_perms !! key.
Proof.
  intros Hkey. revert element_perms.
  induction rules as [|r rules IH]; intros p; cbn [fold_left];
    [reflexivity|].
  rewrite IH, merge_rule_lookup.
  rewrite bool_decide_eq_false_2 by exact Hkey. reflexivity.
Qed.

Lemma named_rules_held db user element_name test :
  (exists rule, In rule (named_rules element_name (rules_of_user db user))
                /\ test rule = true)
  <-> held_rule db user element_name test.
Proof.
  unfold named_rules, held_rule. split.
  - intros (rule & Hin & Ht).
    apply in_map_iff in Hin as ([r e] & <- & Hin).
    apply filter_In in Hin as [Hin Hn]. cbn in Hn, Ht.
    apply String.eqb_eq in Hn.
    apply in_rules_of_user in Hin as ((role & Hh & Hr) & He).
    exists role, e, r. auto.
  - intros (role & element & rule & Hh & Hr & He & Hn & Ht).
    exists rule. split; [|exact Ht].
    apply in_map_iff. exists (rule, element). split; [reflexivity|].
    apply filter_In. split.
    + apply in_rules_of_user. split; [|exact He]. exists role. auto.
    + cbn. apply String.eqb_eq. exact Hn.
Qed.

(** The entry of the table for an element name: none when no held role
    has a rule on such an element, the merge of those rules otherwise. *)
Lemma permission_table_lookup db user element_name :
  get_user_permissions db user !! element_name
  = match named_rules element_name (rules_of_user db user) with
    | [] => None
    | rules =>
      Some (fold_left (fun p r => merge_rule r p) rules no_permissions)
    end.
Proof.
  unfold get_user_permissions. rewrite permissions_fold_lookup, lookup_empty.
  destruct (named_rules element_name (rules_of_user db user)) as [|r rs];
    [reflexivity|].
  rewrite entry_fold_some. reflexivity.
Qed.

Lemma permission_entry_lookup db user element_name element_perms key :
  get_user_permissions db user !! element_name = Some element_perms ->
  element_perms !! key
  = if bool_decide (In key canonical_verbs)
    then Some (existsb (rule_flag key)
                 (named_rules element_name (rules_of_user db user)))
    else None.
Proof.
  rewrite permission_table_lookup.
  destruct (named_rules element_name (rules_of_user db user)) as [|r rs];
    [discriminate|].
  intros H.
  assert (Hp : element_perms
               = fold_left (fun p r => merge_rule r p) (r :: rs)
                           no_permissions) by congruence.
  rewrite Hp. clear H Hp.
  destruct (bool_decide (In key canonical_verbs)) eqn:Hkey.
  - apply bool_decide_eq_true in Hkey.
    rewrite merged_lookup_verb; [|exact Hkey|].
    + unfold getitem. rewrite no_permissions_lookup.
      rewrite bool_decide_eq_true_2 by exact Hkey. reflexivity.
    + rewrite no_permissions_lookup.
      rewrite bool_decide_eq_true_2 by exact Hkey. eauto.
  - apply bool_decide_eq_false in Hkey.
    rewrite merged_lookup_other by exact Hkey.
    rewrite no_permissions_lookup.
    rewrite bool_decide_eq_false_2 by exact Hkey. reflexivity.
Qed.

Lemma table_flag_held_rule db user element_name key :
  In key canonical_verbs ->
  table_flag (get_user_permissions db user) element_name key = true
  <-> held_rule db user element_name (rule_flag key).
Proof.
  intros Hkey. rewrite <- named_rules_held. unfold table_flag, getitem.
  destruct (get_user_permissions db user !! element_name) as [p|] eqn:E.
  - rewrite (permission_entry_lookup db user element_name p key E).
    rewrite bool_decide_eq_true_2 by exact Hkey. cbn [default].
    apply existsb_exists.
  - rewrite permission_table_lookup in E.
    destruct (named_rules element_name (rules_of_user db user));
      [|discriminate].
    split; [discriminate|]. intros (rule & [] & _).
Qed.

(** X1. [get_user_permissions] has an entry for an element name exactly
    when some role the user holds has a rule on an element of that name.
    Such an entry holds the seven verbs and nothing else, and a verb is
    [True] in it exactly when one of those rules sets that flag. *)
Theorem permission_table_entries db user element_name :
  (is_Some (get_user_permissions db user !! element_name)
   <-> held_rule db user element_name (fun _ => true))
  /\ forall element_perms,
      get_user_permissions db user !! element_name = Some element_perms ->
      forall key,
        (In key canonical_verbs ->
         exists b, element_perms !! key = Some b
                   /\ (b = true
                       <-> held_rule db user element_name (rule_flag key)))
        /\ (~ In key canonical_verbs -> element_perms !! key = None).
Proof.
  split.
  - rewrite <- named_rules_held, permission_table_lookup.
    destruct (named_rules element_name (rules_of_user db user)) as [|r rs].
    + split; [intros [? [=]]|intros (rule & [] & _)].
    + split; [|eauto]. intros _. exists r. split; [left|]; reflexivity.
  - intros element_perms Hentry key.
    rewrite (permission_entry_lookup db user element_name element_perms key
               Hentry).
    split; intros Hkey.
    + rewrite bool_decide_eq_true_2 by exact Hkey.
      eexists. split; [reflexivity|].
      rewrite existsb_exists. apply named_rules_held.
    + rewrite bool_decide_eq_false_2 by exact Hkey. reflexivity.
Qed.

Lemma held_rule_ext db user element_name (f g : AccessRule.t -> bool) :
  (forall rule, f rule = g rule) ->
  held_rule db user element_name f <-> held_rule db user element_name g.
Proof.
  intros Hfg. unfold held_rule.
  split; intros (role & element & rule & Hh & Hr & He & Hn & Ht);
    exists role, element, rule; repeat (split; [assumption|]); congruence.
Qed.

Lemma held_rule_orb db user element_name (f g : AccessRule.t -> bool) :
  held_rule db user element_name (fun rule => f rule || g rule)
  <-> held_rule db user element_name f \/ held_rule db user element_name g.
Proof.
  unfold held_rule. split.
  - intros (role & element & rule & Hh & Hr & He & Hn & Ht).
    apply orb_true_iff in Ht as [Ht|Ht]; [left|right];
      exists role, element, rule; auto.
  - intros [H|H];
      destruct H as (role & element & rule & Hh & Hr & He & Hn & Ht);
      exists role, element, rule; repeat (split; [assumption|]);
      rewrite Ht; [reflexivity|apply orb_true_r].
Qed.

Lemma held_rule_andb db user element_name (f : AccessRule.t -> bool) c :
  held_rule db user element_name (fun rule => f rule && c)
  <-> held_rule db user element_name f /\ c = true.
Proof.
  unfold held_rule. split.
  - intros (role & element & rule & Hh & Hr & He & Hn & Ht).
    apply andb_true_iff in Ht as [Ht Hc]. split; [|exact Hc].
    exists role, element, rule. auto.
  - intros [(role & element & rule & Hh & Hr & He & Hn & Ht) Hc].
    exists role, element, rule. repeat (split; [assumption|]).
    rewrite Ht, Hc. reflexivity.
Qed.

Lemma has_access_expected db user element_name action owner_id expected :
  db_ok db ->
  (expected = true
   <-> held_rule db user element_name (rule_allows user action owner_id)) ->
  has_access db user element_name action owner_id = Ok expected.
Proof.
  intros Hok Hexp.
  destruct (has_access_held_rule db user element_name action owner_id Hok)
    as (b & -> & Hb).
  f_equal. apply eq_true_iff_eq. rewrite Hb, Hexp. reflexivity.
Qed.

Lemma rule_allows_unscoped user action owner_id rule :
  In action ["create"; "read_all"; "update_all"; "delete_all"] ->
  rule_allows user action owner_id rule = rule_flag action rule.
Proof.
  intros [<-|[<-|[<-|[<-|[]]]]]; unfold rule_allows, rule_flag; cbn;
    destruct rule as [? ? r ra c u ua d da]; cbn;
    destruct r, ra, c, u, ua, d, da; reflexivity.
Qed.

Lemma rule_allows_scoped user action owner_id rule :
  owner_scoped action ->
  rule_allows user action owner_id rule
  = rule_flag (action ++ "_all") rule
    || rule_flag action rule && bool_decide (owner_id = Some (User.id user)).
Proof.
  intros [->|[->| ->]]; unfold rule_allows, rule_flag; cbn;
    destruct rule as [? ? r ra c u ua d da]; cbn;
    destruct (bool_decide (owner_id = Some (User.id user)));
    destruct r, ra, c, u, ua, d, da; reflexivity.
Qed.


Lemma has_access_implied db user element_name action owner_id action'
      owner_id' :
  (forall rule, rule_allows user action owner_id rule = true ->
                rule_allows user action' owner_id' rule = true) ->
  has_access db user element_name action owner_id = Ok true ->
  has_access db user element_name action' owner_id' = Ok true.
Proof.
  intros Himp. unfold has_access.
  destruct (objects_get _ (business_elements db)) as [element|[]];
    try discriminate.
  rewrite !scan_rules_existsb. intros [= H]. f_equal.
  apply existsb_exists in H as (rule & Hin & Hallow).
  apply existsb_exists. exists rule. auto.
Qed.

Lemma has_access_same db user element_name action owner_id action' owner_id' :
  (forall rule, rule_allows user action owner_id rule
                = rule_allows user action' owner_id' rule) ->
  has_access db user element_name action owner_id
  = has_access db user element_name action' owner_id'.
Proof.
  intros Hsame. unfold has_access.
  destruct (objects_get _ (business_elements db)) as [element|e];
    [|reflexivity].
  rewrite !scan_rules_existsb. f_equal.
  apply existsb_iff. split; intros (rule & Hin & H); exists rule;
    (split; [exact Hin|]); congruence.
Qed.

Lemma rule_allows_no_owner user action rule :
  owner_scoped action ->
  rule_allows user action None rule
  = rule_allows user (action ++ "_all") None rule.
Proof.
  intros [->|[->| ->]]; unfold rule_allows; cbn;
    destruct rule as [? ? r ra c u ua d da]; cbn;
    destruct r, ra, c, u, ua, d, da; reflexivity.
Qed.

Lemma rule_allows_all_scoped user action owner_id rule :
  owner_scoped action ->
  rule_allows user (action ++ "_all") None rule = true ->
  rule_allows user action owner_id rule = true.
Proof.
  intros [->|[->| ->]]; unfold rule_allows; cbn;
    destruct rule as [? ? r ra c u ua d da]; cbn;
    destruct (bool_decide (owner_id = Some (User.id user)));
    destruct r, ra, c, u, ua, d, da; try reflexivity; discriminate.
Qed.

(** X3. The helpers [user_can_read], [user_can_update] and
    [user_can_delete], called without an owner id, return what
    [user_can_read_all], [user_can_update_all] and [user_can_delete_all]
    return, exceptions included; and where the [_all] helper returns
    [True], the scoped helper returns [True] for every owner id. *)
Theorem scoped_helpers_without_owner db user element_name :
  user_can_read db user element_name None
  = user_can_read_all db user element_name
  /\ user_can_update db user element_name None
     = user_can_update_all db user element_name
  /\ user_can_delete db user element_name None
     = user_can_delete_all db user element_name
  /\ forall resource_owner_id,
      (user_can_read_all db user element_name = Ok true ->
       user_can_read db user element_name resource_owner_id = Ok true)
      /\ (user_can_update_all db user element_name = Ok true ->
          user_can_update db user element_name resource_owner_id = Ok true)
      /\ (user_can_delete_all db user element_name = Ok true ->
          user_can_delete db user element_name resource_owner_id = Ok true).
Proof.
  unfold user_can_read, user_can_read_all, user_can_update,
    user_can_update_all, user_can_delete, user_can_delete_all,
    check_permission_for_element.
  assert (Hsame : forall action,
             owner_scoped action ->
             has_access db user element_name action None
             = has_access db user element_name (action ++ "_all") None).
  { intros action Hact. apply has_access_same. intros rule.
    apply rule_allows_no_owner. exact Hact. }
  assert (Himp : forall action owner_id,
             owner_scoped action ->
             has_access db user element_name (action ++ "_all") None = Ok true
             -> has_access db user element_name action owner_id = Ok true).
  { intros action owner_id Hact. apply has_access_implied. intros rule.
    apply rule_allows_all_scoped. exact Hact. }
  split; [apply (Hsame "read"); unfold owner_scoped; tauto|].
  split; [apply (Hsame "update"); unfold owner_scoped; tauto|].
  split; [apply (Hsame "delete"); unfold owner_scoped; tauto|].
  intros resource_owner_id.
  split; [apply (Himp "read"); unfold owner_scoped; tauto|].
  split; [apply (Himp "update")|apply (Himp "delete")];
    unfold owner_scoped; tauto.
Qed.

(** X4. [has_access] does not look at [owner_id] for [create] and for the
    three [_all] verbs: two calls that differ in the owner id only return
    the same answer or raise the same exception. *)
Theorem unscoped_verbs_ignore_owner db user element_name action o1 o2 :
  In action ["create"; "read_all"; "update_all"; "delete_all"] ->
  has_access db user element_name action o1
  = has_access db user element_name action o2.
Proof.
  intros Hact. apply has_access_same. intros rule.
  rewrite !rule_allows_unscoped by exact Hact. reflexivity.
Qed.

(** X5. The loop of [has_access] answers for the set of rules it is given:
    two lists with the same members, in any order and with any
    repetitions, get the same answer. *)
Theorem scan_rules_order_free user action owner_id rules rules' :
  (forall rule, In rule rules <-> In rule rules') ->
  scan_rules user action owner_id rules
  = scan_rules user action owner_id rules'.
Proof.
  intros Hsame. rewrite !scan_rules_existsb. apply existsb_iff.
  split; intros (rule & Hin & H); exists rule; split; auto; apply Hsame; auto.
Qed.

(** X6. [MockProductsView.get] asks [has_access] for [read] without an
    owner id, so under the schema's constraints it lists the products (200)
    exactly for a user one of whose roles sets [read_all] on "products";
    every other authenticated user, also one whose roles set [read] there,
    gets 403, and a request without a user gets 401. *)
Theorem mock_products_needs_read_all db user :
  db_ok db ->
  (held_rule db user "products" AccessRule.read_all_permission ->
   exists response,
     MockProductsView_get db (Some user) = Ok response
     /\ status_code response = 200)
  /\ (~ held_rule db user "products" AccessRule.read_all_permission ->
      MockProductsView_get db (Some user)
      = Ok {| content := JDict []; status_code := 403 |})
  /\ MockProductsView_get db None
     = Ok {| content := JDict []; status_code := 401 |}.
Proof.
  intros Hok.
  assert (Hread : forall b,
             (b = true
              <-> held_rule db user "products" AccessRule.read_all_permission)
             -> has_access db user "products" "read" None = Ok b).
  { intros b Hb. apply has_access_expected; [exact Hok|].
    rewrite Hb. apply held_rule_ext. intros rule.
    unfold rule_allows. cbn.
    destruct rule as [? ? r ra c u ua d da]; cbn.
    destruct r, ra, c, u, ua, d, da; reflexivity. }
  split; [|split; [|reflexivity]].
  - intros Hheld. unfold MockProductsView_get.
    rewrite (Hread true) by tauto. cbn. eauto.
  - intros Hnot. unfold MockProductsView_get.
    rewrite (Hread false); [reflexivity|]. split; [discriminate|tauto].
Qed.

(** * More on the session layer *)

Lemma objects_get_Ok_In {A} (cond : A -> bool) l x :
  objects_get cond l = Ok x -> In x l /\ cond x = true.
Proof.
  unfold objects_get. intros H.
  destruct (List.filter cond l) as [|y [|z rest]] eqn:Hf; try discriminate.
  injection H as ->. apply filter_In. rewrite Hf. left; reflexivity.
Qed.

Lemma filter_updated_other pk write rows (cond : User.t -> bool) :
  (forall row, User.id row = pk -> cond row = false) ->
  (forall row, User.id row = pk -> cond (write row) = false) ->
  List.filter cond (updated pk write rows) = List.filter cond rows.
Proof.
  intros Hrow Hwrite. unfold updated.
  induction rows as [|a rows IH]; [reflexivity|]. cbn [map List.filter].
  destruct (Z.eqb_spec (User.id a) pk) as [Heq|Hne].
  - rewrite (Hrow a Heq), (Hwrite a Heq). exact IH.
  - rewrite IH. reflexivity.
Qed.

Lemma updated_emails_unique pk user rows :
  List.NoDup (map User.id rows) ->
  List.NoDup (map User.email rows) ->
  (forall row, In row rows -> User.email row = User.email user ->
               User.id row = pk) ->
  List.NoDup (map User.email (updated pk (fun _ => user) rows)).
Proof.
  intros Hid Hem Hown. induction rows as [|a rows IH]; [constructor|].
  cbn in *. inversion Hid as [|? ? Ha Hid']; subst.
  inversion Hem as [|? ? Hb Hem']; subst.
  assert (IH' := IH Hid' Hem' (fun row H => Hown row (or_intror H))).
  destruct (Z.eqb_spec (User.id a) pk) as [Heq|Hne].
  - constructor; [|exact IH'].
    intros Hin. apply in_map_iff in Hin as (row' & He & Hin).
    apply in_updated in Hin as (row & Hrow & [[Hrid _]|[Hrid ->]]).
    + apply Ha. rewrite Heq, <- Hrid. apply in_map. exact Hrow.
    + apply Hrid. apply Hown; auto.
  - constructor; [|exact IH'].
    intros Hin. apply in_map_iff in Hin as (row' & He & Hin).
    apply in_updated in Hin as (row & Hrow & [[Hrid ->]|[Hrid ->]]).
    + apply Hne. apply Hown; auto.
    + apply Hb. rewrite <- He. apply in_map. exact Hrow.
Qed.

Lemma email_taken_false db user row :
  email_taken db user = false ->
  In row (users db) -> User.email row = User.email user ->
  User.id row = User.id user.
Proof.
  intros Hem Hrow He.
  assert (Hf := existsb_false_inv _ _ row Hem Hrow). cbn in Hf.
  rewrite He, String.eqb_refl in Hf. cbn in Hf.
  apply negb_false_iff, Z.eqb_eq in Hf. exact Hf.
Qed.

(** A [save()] that goes through keeps the constraints. *)
Lemma save_ok db now user user' db' :
  db_ok db -> save db now user = Ok (user', db') -> db_ok db'.
Proof.
  intros Hok. unfold save.
  destruct (pk_exists db (User.id user)) eqn:Hpk.
  - destruct (email_taken db _) eqn:Hem; [discriminate|].
    intros [= <- <-]. apply set_users_ok; [exact Hok| |].
    + change (List.NoDup
                (map User.id
                     (updated (User.id user)
                        (fun _ => User.set_updated_at now user) (users db)))).
      rewrite updated_ids; [apply Hok|]. reflexivity.
    + change (List.NoDup
                (map User.email
                     (updated (User.id user)
                        (fun _ => User.set_updated_at now user) (users db)))).
      apply updated_emails_unique; try apply Hok.
      intros row Hrow He.
      exact (email_taken_false db _ row Hem Hrow He).
  - intros H. apply insert_user_ok in H as (Hok' & _); auto.
Qed.

Lemma deleted_inactive_updated db pk write :
  deleted_inactive db ->
  (forall row, User.deleted_at row <> None -> User.is_active row = false ->
               User.deleted_at (write row) <> None ->
               User.is_active (write row) = false) ->
  (forall row, User.deleted_at row = None ->
               User.deleted_at (write row) <> None ->
               User.is_active (write row) = false) ->
  deleted_inactive (set_users (updated pk write (users db)) db).
Proof.
  intros Hinv Hset Hnone row Hrow Hdel. cbn in Hrow.
  apply in_updated in Hrow as (r & Hr & [[_ ->]|[_ ->]]).
  - destruct (User.deleted_at r) eqn:E.
    + apply Hset; auto; try congruence. apply Hinv; auto. congruence.
    + apply Hnone; auto.
  - apply Hinv; auto.
Qed.


Section MoreSessions.

Context {Token : Type}.
Variable jwt_encode : gmap string Z -> string -> Token.
Variable jwt_decode : Z -> Token -> string -> option (gmap string Z).
Variable JWT_SECRET_KEY : string.
Variable hashpw : string -> string -> string.
Variable checkpw : string -> string -> bool.

Local Abbreviation issue := (generate_token jwt_encode JWT_SECRET_KEY).
Local Abbreviation verify := (verify_token jwt_decode JWT_SECRET_KEY).
Local Abbreviation login := (login_user jwt_encode JWT_SECRET_KEY checkpw).

(** X8. Whatever the token is, a user that [verify_token] returns is a
    stored, active row whose id is not 0, and the token decodes, at that
    time and under the server's key, to claims that carry this row's id
    and its current token version. *)
Theorem verify_token_sound db now token user :
  verify db now token = Ok (Some user) ->
  In user (users db)
  /\ User.is_active user = true
  /\ User.id user <> 0
  /\ exists payload,
      jwt_decode now token JWT_SECRET_KEY = Some payload
      /\ payload !! "user_id" = Some (User.id user)
      /\ payload !! "token_version" = Some (User.token_version user).
Proof.
  unfold verify_token.
  destruct (jwt_decode now token JWT_SECRET_KEY) as [payload|];
    [|discriminate].
  destruct (payload !! "user_id") as [uid|] eqn:Huid; [|discriminate].
  cbn [falsy]. destruct (Z.eqb_spec uid 0) as [|Hnz]; [discriminate|].
  destruct (objects_get _ (users db)) as [row|[]] eqn:Hget; try discriminate.
  apply objects_get_Ok_In in Hget as [Hin Hc].
  apply andb_true_iff in Hc as [Hid Hact].
  apply bool_decide_eq_true in Hid. injection Hid as Hid.
  destruct (bool_decide (Some (User.token_version row)
                         = payload !! "token_version")) eqn:Htv;
    [|discriminate].
  apply bool_decide_eq_true in Htv. cbn. intros [= <-].
  repeat split; auto; [congruence|].
  exists payload. repeat split; congruence.
Qed.

Lemma verify_token_complete db now token user payload :
  db_ok db ->
  In user (users db) ->
  User.is_active user = true ->
  User.id user <> 0 ->
  jwt_decode now token JWT_SECRET_KEY = Some payload ->
  payload !! "user_id" = Some (User.id user) ->
  payload !! "token_version" = Some (User.token_version user) ->
  verify db now token = Ok (Some user).
Proof.
  intros Hok Hin Hact Hnz Hdec Huid Htv. unfold verify_token.
  rewrite Hdec, Huid, Htv. cbn [falsy].
  apply Z.eqb_neq in Hnz. rewrite Hnz.
  rewrite (objects_get_single User.id _ (users db) user); auto.
  - rewrite bool_decide_eq_true_2; reflexivity.
  - apply Hok.
  - rewrite Hact, bool_decide_eq_true_2; reflexivity.
  - intros y _ Hy. apply andb_true_iff in Hy as [Hy _].
    apply bool_decide_eq_true in Hy. congruence.
Qed.


Lemma login_user_outcome db now email password :
  db_ok db ->
  (login db now email password = Ok None
   /\ forall user, In user (users db) -> User.email user = email ->
                   User.is_active user = true ->
                   checkpw password (User.password_hash user) = false)
  \/ exists user,
      In user (users db) /\ User.email user = email
      /\ User.is_active user = true
      /\ checkpw password (User.password_hash user) = true
      /\ login db now email password = Ok (Some (issue now user)).
Proof.
  intros Hok. unfold login_user, check_password.
  destruct (objects_get_cases User.email email
              (fun u => (User.email u =? email)%string && User.is_active u)
              (users db)) as [[Hg Hnone]|(row & Hg & Hin & Hc)].
  - apply Hok.
  - intros y Hy. apply andb_true_iff in Hy as [Hy _].
    apply String.eqb_eq in Hy. exact Hy.
  - left. rewrite Hg. split; [reflexivity|].
    intros user Hin He Hact. specialize (Hnone user Hin). cbn in Hnone.
    rewrite He, String.eqb_refl, Hact in Hnone. discriminate.
  - rewrite Hg. apply andb_true_iff in Hc as [He Hact].
    apply String.eqb_eq in He.
    destruct (checkpw password (User.password_hash row)) eqn:Hpw.
    + right. exists row. auto.
    + left. split; [reflexivity|]. intros user Hu Hue _.
      rewrite (NoDup_map_eq User.email (users db) user row); auto.
      * apply Hok.
      * congruence.
Qed.



Lemma verify_token_other db db' now token other :
  verify db now token = Ok (Some other) ->
  List.filter
    (fun u => bool_decide (Some (User.id u) = Some (User.id other))
              && User.is_active u) (users db')
  = List.filter
      (fun u => bool_decide (Some (User.id u) = Some (User.id other))
                && User.is_active u) (users db) ->
  verify db' now token = Ok (Some other).
Proof.
  intros Hv Hf.
  destruct (verify_token_sound db now token other Hv)
    as (_ & _ & _ & payload & Hdec & Huid & _).
  revert Hv. unfold verify_token, objects_get.
  rewrite Hdec, Huid, Hf. auto.
Qed.



End MoreSessions.

(** * More on registration and deletion *)

Lemma pk_exists_true db pk :
  pk_exists db pk = true -> exists row, In row (users db) /\ User.id row = pk.
Proof.
  intros H. apply existsb_exists in H as (row & Hin & Heq).
  exists row. split; [exact Hin|]. apply Z.eqb_eq. exact Heq.
Qed.



(** X16. [logout_user] writes with [update_fields], so for a user whose
    row is not in the table the write touches no row and Django raises
    [DatabaseError]: [logout_user] raises it, and [LogoutView.post], which
    has no handler, lets it escape. *)
Theorem logout_of_missing_row_raises db user :
  (forall row, In row (users db) -> User.id row <> User.id user) ->
  logout_user db user = Raise DatabaseError
  /\ LogoutView_post db (Some user) = Raise DatabaseError.
Proof.
  intros Hmissing.
  assert (H : logout_user db user = Raise DatabaseError).
  { unfold logout_user, save_token_version. cbn.
    destruct (pk_exists db (User.id user)) eqn:Hpk; [|reflexivity].
    apply pk_exists_true in Hpk as (row & Hrow & Heq).
    exfalso. exact (Hmissing row Hrow Heq). }
  split; [exact H|]. unfold LogoutView_post. rewrite H. reflexivity.
Qed.

(** * Role assignment *)

Lemma has_access_roles_added db db' user element_name action owner_id :
  roles_added db db' ->
  has_access db user element_name action owner_id = Ok true ->
  has_access db' user element_name action owner_id = Ok true.
Proof.
  intros (Hu & Hr & He & Ha & Hincl). unfold has_access. rewrite He.
  destruct (objects_get _ (business_elements db)) as [element|[]];
    try discriminate.
  rewrite !scan_rules_existsb. intros [= H]. f_equal.
  apply existsb_exists in H as (rule & Hin & Hallow).
  apply existsb_exists. exists rule. split; [|exact Hallow].
  apply in_rules_for in Hin
    as (role & (Hrole & ur & Hur & H1 & H2) & Hrule & H3 & H4).
  apply in_rules_for. exists role. split.
  - split; [rewrite Hr; exact Hrole|].
    exists ur. split; [apply Hincl; exact Hur|]. split; assumption.
  - split; [rewrite Ha; exact Hrule|]. split; assumption.
Qed.

Lemma roles_added_refl db : roles_added db db.
Proof. repeat split; try reflexivity. intros x Hx. exact Hx. Qed.

Lemma get_or_create_spec db user role :
  db_ok db ->
  exists ur created db',
    UserRole_get_or_create db user role = Ok (ur, created, db')
    /\ db_ok db'
    /\ roles_added db db'
    /\ In ur (user_roles db')
    /\ UserRole.user_id ur = User.id user
    /\ UserRole.role_id ur = Role.id role
    /\ ((exists ur0, In ur0 (user_roles db)
                     /\ UserRole.user_id ur0 = User.id user
                     /\ UserRole.role_id ur0 = Role.id role) -> db' = db).
Proof.
  intros Hok. unfold UserRole_get_or_create.
  destruct (objects_get_cases
              (fun ur => (UserRole.user_id ur, UserRole.role_id ur))
              (User.id user, Role.id role)
              (fun ur => (UserRole.user_id ur =? User.id user)
                         && (UserRole.role_id ur =? Role.id role))
              (user_roles db)) as [[Hg Hnone]|(ur & Hg & Hin & Hc)].
  - apply Hok.
  - intros y Hy. apply andb_true_iff in Hy as [H1 H2].
    apply Z.eqb_eq in H1, H2. congruence.
  - rewrite Hg. eexists. eexists. eexists. split; [reflexivity|].
    split; [|split; [|split; [|split; [|split]]]]; try reflexivity.
    + destruct Hok. constructor; try assumption.
      cbn. rewrite map_app. cbn. apply NoDup_snoc; [assumption|].
      intros Hin. apply in_map_iff in Hin as (ur & Heq & Hin).
      specialize (Hnone ur Hin). cbn in Hnone. injection Heq as H1 H2.
      rewrite H1, H2, !Z.eqb_refl in Hnone. discriminate.
    + repeat split; try reflexivity. intros x Hx. cbn.
      apply in_or_app. left. exact Hx.
    + cbn. apply in_or_app. right. left. reflexivity.
    + intros (ur0 & Hin & H1 & H2). specialize (Hnone ur0 Hin).
      cbn in Hnone. rewrite H1, H2, !Z.eqb_refl in Hnone. discriminate.
  - rewrite Hg. apply andb_true_iff in Hc as [H1 H2].
    apply Z.eqb_eq in H1, H2.
    exists ur, false, db. split; [reflexivity|].
    split; [exact Hok|]. split; [apply roles_added_refl|]. auto.
Qed.

Lemma get_by_pk_cases {A} (pk : A -> Z) (k : Z) (table : list A) :
  List.NoDup (map pk table) ->
  (objects_get (fun row => pk row =? k) table = Raise DoesNotExist
   /\ forall row, In row table -> pk row <> k)
  \/ exists row, objects_get (fun row => pk row =? k) table = Ok row
                 /\ In row table /\ pk row = k.
Proof.
  intros Hnd.
  destruct (objects_get_cases pk k (fun row => pk row =? k) table Hnd)
    as [[Hg Hnone]|(row & Hg & Hin & Hc)].
  - intros y Hy. apply Z.eqb_eq. exact Hy.
  - left. split; [exact Hg|]. intros row Hrow.
    apply Z.eqb_neq. apply Hnone. exact Hrow.
  - right. exists row. repeat split; auto. apply Z.eqb_eq. exact Hc.
Qed.

(** What [AssignRoleView.post] does for a caller who is allowed. *)
Lemma assign_role_allowed db caller user_id role_id :
  db_ok db ->
  has_access db caller "users" "update_all" None = Ok true ->
  (AssignRoleView_post db (Some caller) user_id role_id
   = Ok ({| body := [("error", JExn DoesNotExist)]; status := 400 |}, db)
   /\ ((forall row, In row (users db) -> User.id row <> user_id)
       \/ (forall row, In row (roles db) -> Role.id row <> role_id)))
  \/ exists user role db',
      AssignRoleView_post db (Some caller) user_id role_id
      = Ok ({| body := [("user_id", JInt user_id); ("role_id", JInt role_id);
                        ("message", JStr "Role assigned successfully")];
               status := 200 |}, db')
      /\ In user (users db) /\ User.id user = user_id
      /\ In role (roles db) /\ Role.id role = role_id
      /\ db_ok db' /\ roles_added db db'
      /\ holds_role db' user role
      /\ (holds_role db user role -> db' = db).
Proof.
  intros Hok Hacc. unfold AssignRoleView_post. rewrite Hacc. cbn.
  destruct (get_by_pk_cases User.id user_id (users db))
    as [[Hg Hnone]|(user & Hg & Hin & Hid)]; [apply Hok| |].
  { left. rewrite Hg. cbn. auto. }
  rewrite Hg. cbn.
  destruct (get_by_pk_cases Role.id role_id (roles db))
    as [[Hg' Hnone]|(role & Hg' & Hin' & Hid')]; [apply Hok| |].
  { left. rewrite Hg'. cbn. auto. }
  rewrite Hg'. cbn.
  destruct (get_or_create_spec db user role Hok)
    as (ur & created & db' & Hgc & Hok' & Hadded & Hur & H1 & H2 & Hsame).
  right. exists user, role, db'. rewrite Hgc. cbn. subst user_id role_id.
  split; [reflexivity|].
  split; [exact Hin|]. split; [reflexivity|].
  split; [exact Hin'|]. split; [reflexivity|].
  split; [exact Hok'|]. split; [exact Hadded|]. split.
  - split.
    + destruct Hadded as (_ & Hr & _). rewrite Hr. exact Hin'.
    + exists ur. auto.
  - intros (_ & ur0 & Hur0 & Hr0 & Hu0). apply Hsame. exists ur0. auto.
Qed.

(** X17. Under the schema's constraints [AssignRoleView.post] always
    answers (401, 403, 400 or 200) and never raises; the database it leaves
    satisfies the constraints, differs from the old one at most by one more
    role assignment, and is the old one unless the answer is 200; and every
    permission [has_access] granted before, to anyone, is still granted. *)
Theorem assign_role_answers db request_user user_id role_id :
  db_ok db ->
  exists response db',
    AssignRoleView_post db request_user user_id role_id = Ok (response, db')
    /\ In (status response) [200; 400; 401; 403]
    /\ db_ok db'
    /\ roles_added db db'
    /\ (status response <> 200 -> db' = db)
    /\ (forall user element_name action owner_id,
           has_access db user element_name action owner_id = Ok true ->
           has_access db' user element_name action owner_id = Ok true).
Proof.
  intros Hok.
  assert (Hsame : forall response,
             In (status response) [200; 400; 401; 403] ->
             AssignRoleView_post db request_user user_id role_id
             = Ok (response, db) ->
             exists response db',
               AssignRoleView_post db request_user user_id role_id
               = Ok (response, db')
               /\ In (status response) [200; 400; 401; 403]
               /\ db_ok db' /\ roles_added db db'
               /\ (status response <> 200 -> db' = db)
               /\ (forall user element_name action owner_id,
                      has_access db user element_name action owner_id
                      = Ok true ->
                      has_access db' user element_name action owner_id
                      = Ok true)).
  { intros response Hst H. exists response, db.
    split; [exact H|]. split; [exact Hst|]. split; [exact Hok|].
    split; [apply roles_added_refl|]. split; auto. }
  destruct request_user as [caller|].
  - destruct (has_access_held_rule db caller "users" "update_all" None Hok)
      as ([|] & Hacc & _).
    + destruct (assign_role_allowed db caller user_id role_id Hok Hacc)
        as [[H _]|(user & role & db' & H & _ & _ & _ & _ & Hok' & Hadd & _)].
      * eapply Hsame; [|exact H]. cbn. tauto.
      * eexists. exists db'. split; [exact H|].
        split; [cbn; tauto|]. split; [exact Hok'|]. split; [exact Hadd|].
        split; [cbn; congruence|]. intros user0 e a o.
        apply has_access_roles_added. exact Hadd.
    + eapply Hsame; [|unfold AssignRoleView_post; rewrite Hacc; reflexivity].
      cbn. tauto.
  - eapply Hsame; [|reflexivity]. cbn. tauto.
Qed.

(** X18. When [AssignRoleView.post] answers 200, the caller was
    authenticated and allowed [update_all] on "users", a stored user
    (active or not) and a stored role have the two ids, and afterwards
    that user holds that role.  Posting the same assignment again gives the
    same answer and leaves the database as it is. *)
Theorem assign_role_grants db request_user user_id role_id response db' :
  db_ok db ->
  AssignRoleView_post db request_user user_id role_id = Ok (response, db') ->
  status response = 200 ->
  (exists caller,
      request_user = Some caller
      /\ has_access db caller "users" "update_all" None = Ok true)
  /\ (exists user role,
         In user (users db) /\ User.id user = user_id
         /\ In role (roles db) /\ Role.id role = role_id
         /\ holds_role db' user role)
  /\ AssignRoleView_post db' request_user user_id role_id
     = Ok (response, db').
Proof.
  intros Hok Hpost Hst.
  destruct request_user as [caller|];
    [|cbn in Hpost; injection Hpost as <- <-; discriminate Hst].
  destruct (has_access_held_rule db caller "users" "update_all" None Hok)
    as ([|] & Hacc & _);
    [|unfold AssignRoleView_post in Hpost; rewrite Hacc in Hpost;
      cbn in Hpost; injection Hpost as <- <-; discriminate Hst].
  destruct (assign_role_allowed db caller user_id role_id Hok Hacc)
    as [[H _]|(user & role & db1 & H & Hu & Hui & Hr & Hri & Hok1 & Hadd1
               & Hholds & _)];
    rewrite H in Hpost; injection Hpost as <- <-; [discriminate Hst|].
  split; [eauto|]. split; [exists user, role; auto|].
  assert (Hacc1 : has_access db1 caller "users" "update_all" None = Ok true)
    by (apply (has_access_roles_added db db1); assumption).
  destruct (assign_role_allowed db1 caller user_id role_id Hok1 Hacc1)
    as [[_ [Hno|Hno]]|(user2 & role2 & db2 & H2 & Hu2 & Hui2 & Hr2 & Hri2
                       & _ & _ & _ & Hsame)].
  - exfalso. destruct Hadd1 as (Husers & _). rewrite Husers in Hno.
    exact (Hno user Hu Hui).
  - exfalso. destruct Hadd1 as (_ & Hroles & _). rewrite Hroles in Hno.
    exact (Hno role Hr Hri).
  - rewrite H2. do 2 f_equal. apply Hsame.
    assert (user2 = user).
    { destruct Hadd1 as (Husers & _). rewrite Husers in Hu2.
      apply (NoDup_map_eq User.id (users db)); auto; [apply Hok|congruence]. }
    assert (role2 = role).
    { destruct Hadd1 as (_ & Hroles & _). rewrite Hroles in Hr2.
      apply (NoDup_map_eq Role.id (roles db)); auto; [apply Hok|congruence]. }
    subst. exact Hholds.
Qed.

(** * The middleware and the login view *)

Lemma verify_token_answers {Token : Type}
      (jwt_decode : Z -> Token -> string -> option (gmap string Z))
      (key : string) db now token :
  db_ok db ->
  exists answer, verify_token jwt_decode key db now token = Ok answer.
Proof.
  intros Hok. unfold verify_token.
  destruct (jwt_decode now token key) as [payload|]; [|eauto].
  destruct (payload !! "user_id") as [uid|]; [|cbn; eauto].
  cbn [falsy]. destruct (uid =? 0); [eauto|].
  destruct (objects_get_cases User.id uid
              (fun u => bool_decide (Some (User.id u) = Some uid)
                        && User.is_active u)
              (users db)) as [[Hg _]|(row & Hg & _)].
  - apply Hok.
  - intros y Hy. apply andb_true_iff in Hy as [Hy _].
    apply bool_decide_eq_true in Hy. congruence.
  - rewrite Hg. eauto.
  - rewrite Hg. destruct (negb _); eauto.
Qed.

Lemma prefix_app (p s : string) :
  String.prefix p s = true -> exists t, s = (p ++ t)%string.
Proof.
  revert s. induction p as [|a p IH]; intros s H.
  - exists s. reflexivity.
  - destruct s as [|b s]; cbn in H; [discriminate|].
    destruct (Ascii.ascii_dec a b) as [Heq|]; [subst b|discriminate].
    destruct (IH s H) as (t & ->). exists t. reflexivity.
Qed.

Lemma split_once_bearer token :
  split_once ("Bearer " ++ token) = ["Bearer"; token].
Proof. reflexivity. Qed.

Lemma startswith_bearer token :
  startswith "Bearer " ("Bearer " ++ token) = true.
Proof.
  unfold startswith. cbn.
  repeat match goal with
         | |- context [Ascii.ascii_dec ?a ?b] =>
           destruct (Ascii.ascii_dec a b); [|congruence]
         end.
  destruct token; reflexivity.
Qed.

Section TextTokenProperties.

Variable jwt_encode : gmap string Z -> string -> string.
Variable jwt_decode : Z -> string -> string -> option (gmap string Z).
Variable JWT_SECRET_KEY : string.
Variable checkpw : string -> string -> bool.

Local Abbreviation middleware :=
  (JWTAuthMiddleware_call jwt_decode JWT_SECRET_KEY).
Local Abbreviation verify := (verify_token jwt_decode JWT_SECRET_KEY).

(** X19. [JWTAuthMiddleware] hands [verify_token] exactly the text after
    "Bearer " and the first space, spaces in it included, and leaves the
    user [verify_token] returns in [request.user].  A missing header, an
    empty one and one that does not start with "Bearer " (capital B, one
    space) leave the request anonymous.  The index [parts[1]] is never out
    of range, and under the schema's constraints nothing is raised at
    all. *)
Theorem middleware_reads_bearer db now :
  (forall token,
      middleware db now (Some ("Bearer " ++ token))
      = match verify db now token with
        | Ok user => Returned user
        | Raise e => Faulted (OrmError e)
        end)
  /\ (forall header,
         (forall token, header <> "Bearer " ++ token) ->
         middleware db now (Some header) = Returned None)
  /\ middleware db now None = Returned None
  /\ (forall authorization,
         middleware db now authorization <> Faulted IndexError)
  /\ (db_ok db ->
      forall authorization,
      exists user, middleware db now authorization = Returned user).
Proof.
  assert (Hbearer : forall token,
             middleware db now (Some ("Bearer " ++ token))
             = match verify db now token with
               | Ok user => Returned user
               | Raise e => Faulted (OrmError e)
               end).
  { intros token. unfold JWTAuthMiddleware_call.
    rewrite startswith_bearer, split_once_bearer. reflexivity. }
  assert (Hother : forall header,
             (forall token, header <> "Bearer " ++ token) ->
             middleware db now (Some header) = Returned None).
  { intros header Hno. unfold JWTAuthMiddleware_call.
    destruct (startswith "Bearer " header) eqn:Hs.
    - apply prefix_app in Hs as (t & ->). exfalso. exact (Hno t eq_refl).
    - rewrite andb_false_r. reflexivity. }
  assert (Hcases : forall header,
             (exists token, header = "Bearer " ++ token)
             \/ (forall token, header <> "Bearer " ++ token)).
  { intros header. destruct (startswith "Bearer " header) eqn:Hs.
    - left. apply prefix_app. exact Hs.
    - right. intros token ->. rewrite startswith_bearer in Hs.
      discriminate. }
  split; [exact Hbearer|]. split; [exact Hother|]. split; [reflexivity|].
  split.
  - intros [header|]; [|discriminate].
    destruct (Hcases header) as [(token & ->)|Hno].
    + rewrite Hbearer. destruct (verify db now token); discriminate.
    + rewrite (Hother header Hno). discriminate.
  - intros Hok [header|]; [|eexists; reflexivity].
    destruct (Hcases header) as [(token & ->)|Hno].
    + rewrite Hbearer.
      destruct (verify_token_answers jwt_decode JWT_SECRET_KEY db now token
                  Hok) as (answer & ->).
      eauto.
    + rewrite (Hother header Hno). eauto.
Qed.


End TextTokenProperties.

(** * The further properties at the seeded databases *)

Lemma symbolic_jwt_stable : jwt_stable SymbolicJwt.decode.
Proof.
  intros now now' [payload signer] key p p'. unfold SymbolicJwt.decode.
  destruct (negb _); [discriminate|].
  destruct (match payload !! "exp" with Some _ => _ | None => _ end);
    [discriminate|].
  destruct (match payload !! "iat" with Some _ => _ | None => _ end);
    [discriminate|].
  destruct (match payload !! "exp" with Some _ => _ | None => _ end);
    [discriminate|].
  destruct (match payload !! "iat" with Some _ => _ | None => _ end);
    [discriminate|].
  congruence.
Qed.

Lemma office_db_ok : db_ok Office.db.
Proof. constructor; cbn; nodup. Qed.

Lemma seed_deleted_inactive : deleted_inactive Seed.db.
Proof.
  intros row Hrow Hdel. cbn in Hrow.
  destruct Hrow as [<-|[<-|[<-|[]]]]; cbn in Hdel; congruence.
Qed.


Lemma unscoped_verbs_ignore_owner_witness :
  In "create" ["create"; "read_all"; "update_all"; "delete_all"]
  /\ has_access Seed.db Seed.carol "products" "create" None
     = has_access Seed.db Seed.carol "products" "create" (Some 999).
Proof.
  assert (H : In "create" ["create"; "read_all"; "update_all"; "delete_all"])
    by (left; reflexivity).
  split; [exact H|].
  apply (unscoped_verbs_ignore_owner Seed.db Seed.carol "products" "create"
           None (Some 999) H).
Defined.

Lemma scan_rules_order_free_witness :
  scan_rules Seed.carol "read" (Some 3)
    [Seed.admin_products; Seed.user_products]
  = scan_rules Seed.carol "read" (Some 3)
      [Seed.user_products; Seed.admin_products; Seed.user_products].
Proof.
  apply (scan_rules_order_free Seed.carol "read" (Some 3)).
  intros rule. cbn. tauto.
Defined.

Lemma mock_products_needs_read_all_witness :
  db_ok Seed.db
  /\ ~ held_rule Seed.db Seed.carol "products" AccessRule.read_all_permission
  /\ MockProductsView_get Seed.db (Some Seed.carol)
     = Ok {| content := JDict []; status_code := 403 |}.
Proof.
  assert (H : ~ held_rule Seed.db Seed.carol "products"
                AccessRule.read_all_permission).
  { intros (role & element & rule & Hh & (Hin & Hr & _) & _ & _ & Hflag).
    apply carol_holds_only_user in Hh. rewrite Hh in Hr. cbn in Hin.
    destruct Hin as [<-|[<-|[<-|[<-|[]]]]]; cbn in *; congruence. }
  split; [exact seed_db_ok|]. split; [exact H|].
  apply (proj1 (proj2 (mock_products_needs_read_all Seed.db Seed.carol
                         seed_db_ok)) H).
Defined.


Lemma verify_token_sound_witness :
  verify_token SymbolicJwt.decode Seed.key Seed.db 100
    (generate_token SymbolicJwt.encode Seed.key 100 Seed.bob)
  = Ok (Some Seed.bob)
  /\ In Seed.bob (users Seed.db)
  /\ User.is_active Seed.bob = true
  /\ User.id Seed.bob <> 0.
Proof.
  assert (H : verify_token SymbolicJwt.decode Seed.key Seed.db 100
                (generate_token SymbolicJwt.encode Seed.key 100 Seed.bob)
              = Ok (Some Seed.bob)) by reflexivity.
  split; [exact H|].
  destruct (verify_token_sound SymbolicJwt.decode Seed.key Seed.db 100 _
              Seed.bob H) as (Hin & Hact & Hnz & _).
  auto.
Defined.







Lemma logout_of_missing_row_raises_witness :
  (forall row, In row (users Seed.db) -> User.id row <> User.id Seed.zero)
  /\ LogoutView_post Seed.db (Some Seed.zero) = Raise DatabaseError.
Proof.
  assert (H : forall row, In row (users Seed.db) ->
                          User.id row <> User.id Seed.zero).
  { intros row Hrow. cbn in Hrow.
    destruct Hrow as [<-|[<-|[<-|[]]]]; discriminate. }
  split; [exact H|].
  apply (proj2 (logout_of_missing_row_raises Seed.db Seed.zero H)).
Defined.

Lemma assign_role_answers_witness :
  db_ok Office.db
  /\ exists response db',
      AssignRoleView_post Office.db (Some Seed.carol) 3 1
      = Ok (response, db')
      /\ In (status response) [200; 400; 401; 403]
      /\ db_ok db'.
Proof.
  split; [exact office_db_ok|].
  destruct (assign_role_answers Office.db (Some Seed.carol) 3 1 office_db_ok)
    as (response & db' & H & Hst & Hok & _).
  exists response, db'. auto.
Defined.

Lemma assign_role_grants_witness :
  exists response db',
    AssignRoleView_post Office.db (Some Seed.alice) 3 1 = Ok (response, db')
    /\ status response = 200
    /\ holds_role db' Seed.carol Seed.admin
    /\ AssignRoleView_post db' (Some Seed.alice) 3 1 = Ok (response, db').
Proof.
  eexists. eexists. split; [reflexivity|]. split; [reflexivity|].
  destruct (assign_role_grants Office.db (Some Seed.alice) 3 1 _ _
              office_db_ok eq_refl eq_refl)
    as (_ & _ & Hagain).
  split; [|exact Hagain].
  split; [seed_fact|]. exists (UserRole.Build 3 1). seed_fact.
Defined.


(** * Role creation *)

Lemma existsb_false_all {A} (f : A -> bool) (l : list A) :
  existsb f l = false -> forall x, In x l -> f x = false.
Proof. intros H x Hx. exact (existsb_false_inv f l x H Hx). Qed.

Lemma Role_create_cases db name :
  db_ok db ->
  (exists e, Role_create db name = Raise e
             /\ ((exists role, In role (roles db) /\ Role.name role = name)
                 \/ exists role, In role (roles db)
                                 /\ Role.id role = roles_id_seq db))
  \/ exists db',
      Role_create db name = Ok (Role.Build (roles_id_seq db) name, db')
      /\ db_ok db'
      /\ roles db' = (roles db ++ [Role.Build (roles_id_seq db) name])%list
      /\ (forall role, In role (roles db) ->
                       Role.name role <> name
                       /\ Role.id role <> roles_id_seq db)
      /\ users db' = users db /\ user_roles db' = user_roles db
      /\ business_elements db' = business_elements db
      /\ access_rules db' = access_rules db.
Proof.
  intros Hok. unfold Role_create.
  destruct (existsb (fun r => Role.id r =? roles_id_seq db) (roles db))
    eqn:Hpk.
  { left. eexists. split; [reflexivity|]. right.
    apply existsb_exists in Hpk as (role & Hin & Heq).
    exists role. split; [exact Hin|]. apply Z.eqb_eq. exact Heq. }
  destruct (existsb (fun r => (Role.name r =? name)%string) (roles db))
    eqn:Hname.
  { left. eexists. split; [reflexivity|]. left.
    apply existsb_exists in Hname as (role & Hin & Heq).
    exists role. split; [exact Hin|]. apply String.eqb_eq. exact Heq. }
  right. eexists. split; [reflexivity|].
  assert (Hfresh : forall role, In role (roles db) ->
                                Role.name role <> name
                                /\ Role.id role <> roles_id_seq db).
  { intros role Hin. split.
    - apply String.eqb_neq. exact (existsb_false_all _ _ Hname role Hin).
    - apply Z.eqb_neq. exact (existsb_false_all _ _ Hpk role Hin). }
  split; [|split; [reflexivity|split; [exact Hfresh|repeat split]]].
  destruct Hok. constructor; try assumption; cbn; rewrite map_app; cbn;
    apply NoDup_snoc; try assumption; intros Hin;
    apply in_map_iff in Hin as (role & Heq & Hin);
    destruct (Hfresh role Hin); congruence.
Qed.


